(** * neutron, package [api]: the session table and the handlers of [/auth]

  A shallow embedding of [Auth], [AuthInfo], [AuthCookies] and [DeleteAuth]
  (the file of package [api] that declares [TokenBearer]) and of the
  teardown closure that [Auth] hands to [NewSession].

  The handlers mutate [api.sessions], write to the macaron context
  ([ctx.JSON], [ctx.SetCookie]) and call the backend.  They are embedded in
  a small state monad over a [World]: the session table plus the log of the
  calls made so far. *)

From Stdlib Require Import String Ascii ZArith List Bool Lia.
From stdpp Require Import base gmap strings list fin_maps.

Local Open Scope string_scope.
Local Open Scope list_scope.
Local Open Scope Z_scope.

(** ** Go's [strings] package, as far as the handlers use it *)
Module GoStrings.

(** The loop of [genSplit]: cut at the first occurrence of [sep] while
    cuts remain, then keep the rest unsplit as the last element. *)
Fixpoint cutLoop (cuts : nat) (s sep : string) : list string :=
  match cuts with
  | O => [s]
  | S cuts' =>
      match String.index 0 sep s with
      | None => [s]
      | Some m =>
          let after := (m + String.length sep)%nat in
          String.substring 0 m s
            :: cutLoop cuts' (String.substring after (String.length s - after) s) sep
      end
  end.

(** [strings.SplitN(s, sep, n)] for a non-empty separator: [n = 0] gives
    no element, [n < 0] cuts at every occurrence, [n > 0] gives at most [n]
    elements, at most [len(s) + 1] of them.  Go explodes the string into
    UTF-8 sequences when [sep] is empty; that path is not embedded (the
    package only ever passes [" "]), the string is returned unsplit
    there. *)
Definition SplitN (s sep : string) (n : Z) : list string :=
  if n =? 0 then []
  else if String.eqb sep "" then [s]
  else
    let len := Z.of_nat (String.length s) in
    let n := if n <? 0 then len + 1 else n in
    let n := if n >? len + 1 then len + 1 else n in
    cutLoop (Z.to_nat (n - 1)) s sep.

(** [strings.Split(s, sep)] is [SplitN(s, sep, -1)]. *)
Definition Split (s sep : string) : list string := SplitN s sep (-1).

(** [strings.Contains(s, substr)]. *)
Definition Contains (s substr : string) : bool :=
  match String.index 0 substr s with Some _ => true | None => false end.

(** [strings.Join(elems, sep)]: the elements with [sep] between them. *)
Fixpoint Join (elems : list string) (sep : string) : string :=
  match elems with
  | [] => ""
  | [a] => a
  | a :: rest => a +:+ sep +:+ Join rest sep
  end.

End GoStrings.

(** ** Results of fallible calls: Go's [(value, error)] pairs *)
Inductive result (A : Type) : Type :=
| Success (a : A)
| Failure (err : string).
Arguments Success {A} a.
Arguments Failure {A} err.

(** ** Package [backend]: what the handlers consume of it *)
Module backend.

Record Keypair := { PrivateKey : string }.

Record Address := { Keys : list Keypair }.

Record Event := { ID : string }.

(** The backend is an interface on the Go side.  Its declaration and the
    types [User], [Address] and [Keypair] live outside the embedded files;
    the class lists the members the handlers use.  [DeleteAllEvents]
    returns nothing: it is an entry of the call log (see [api.Call]). *)
Class Backend := {
  User : Type;
  User_ID : User -> string;
  GetMainAddress : User -> Address;
  Encrypt : Keypair -> string -> result string;
  Auth : string -> string -> result User;
  GetLastEvent : string -> result Event
}.

End backend.

(** ** Package [api] *)
Module api.

Definition TokenType := string.
Definition TokenBearer : TokenType := "Bearer".

(** Response envelope.  The struct is declared outside the embedded file and
    built positionally ([Resp{Ok}]); the field carries the name the wire
    format gives it. *)
Record Resp := { ResponseCode : Z }.

Record ErrorResp := {
  ErrorResp_Resp : Resp;
  Error : string;
  ErrorDescription : string
}.

(** The request structs embed a [Req] declared elsewhere in the package; the
    handlers read nothing of it. *)
Record AuthReq := {
  AuthReq_ClientID : string;
  AuthReq_ClientSecret : string;
  Username : string;
  Password : string;
  TwoFactorCode : string
}.

Record AuthResp := {
  AuthResp_Resp : Resp;
  AuthResp_AccessToken : string;
  ExpiresIn : Z;
  AuthResp_TokenType : TokenType;
  Scope : string;
  AuthResp_Uid : string;
  AuthResp_RefreshToken : string;
  UserStatus : Z;
  AuthResp_PrivateKey : string;
  KeySalt : string;
  EventID : string
}.

Record AuthCookiesReq := {
  AuthCookiesReq_ClientID : string;
  AuthCookiesReq_RefreshToken : string;
  RedirectURI : string;
  State : string
}.

Record AuthCookiesResp := {
  AuthCookiesResp_Resp : Resp;
  SessionToken : string
}.

Record AuthCookie := {
  AccessToken : string;
  Uid : string
}.

Record AuthInfoReq := {
  AuthInfoReq_ClientID : string;
  AuthInfoReq_ClientSecret : string;
  AuthInfoReq_Username : string
}.

Record AuthInfoResp := {
  AuthInfoResp_Resp : Resp;
  Modulus : string;
  ServerEphemeral : string;
  Version : Z;
  Salt : string;
  SRPSession : string;
  TwoFactor : Z
}.

(** Modelled from the spec: the [Session] struct, declared outside the
    embedded file.  The spec gives it an [ID], the owning [UserID], a
    [Token] and an [onClose] callback.  Every session the handlers build
    receives the same closure, which reads nothing but the session's own
    fields and the [Api]; the callback is therefore the function [onClose]
    below applied to the record, and is not stored in it. *)
Record Session := {
  ID : string;
  UserID : string;
  Token : string
}.

(** What a handler reads of the macaron context: the request headers, and
    what [api.getUid(ctx)] and [api.getSessionToken(ctx)] return for it
    (both are declared outside the embedded file; the empty string is their
    answer when the request carries none). *)
Record Context := {
  Header : gmap string (list string);
  getUid : string;
  getSessionToken : string
}.

(** The bodies passed to [ctx.JSON]. *)
Inductive Body :=
| RespBody (r : Resp)
| ErrorBody (e : ErrorResp)
| AuthBody (a : AuthResp)
| AuthInfoBody (a : AuthInfoResp)
| AuthCookiesBody (a : AuthCookiesResp).

(** The calls a handler makes on its collaborators, in order.  [OnClose] is
    a ghost entry: it marks that a session's teardown closure was entered,
    so that the number of its runs can be read off the log. *)
Inductive Call :=
| JSON (status : Z) (body : Body)
| SetCookie (name value : string) (maxAge : Z) (path domain : string)
            (secure httpOnly : bool)
| DeleteAllEvents (userID : string)
| OnClose (sessionID : string).

(** [sessions] is [api.sessions], a Go [map[string]*Session]; no embedded
    code writes to a session once it is built, so the map holds values. *)
Record World := {
  sessions : gmap string Session;
  calls : list Call
}.

(** *** The state monad of the handlers *)
Definition M (A : Type) : Type := World -> A * World.

Definition ret {A} (a : A) : M A := fun w => (a, w).

Definition bind {A B} (m : M A) (k : A -> M B) : M B :=
  fun w => let (a, w') := m w in k a w'.

Declare Scope handler_scope.
Delimit Scope handler_scope with handler.
Notation "x <- m ;; k" := (bind m (fun x => k))
  (at level 100, m at next level, right associativity) : handler_scope.
Notation "m ;; k" := (bind m (fun _ => k))
  (at level 100, right associativity) : handler_scope.
Local Open Scope handler_scope.

Definition getSessions : M (gmap string Session) :=
  fun w => (sessions w, w).

Definition modifySessions (f : gmap string Session -> gmap string Session) : M unit :=
  fun w => (tt, {| sessions := f (sessions w); calls := calls w |}).

Definition call (c : Call) : M unit :=
  fun w => (tt, {| sessions := sessions w; calls := calls w ++ [c] |}).

(** The world a handler leaves behind. *)
Definition exec {A} (m : M A) (w : World) : World := snd (m w).

(** The calls a handler adds to the log of [w]. *)
Definition emitted {A} (m : M A) (w : World) : list Call :=
  drop (length (calls w)) (calls (exec m w)).

(** *** Reading the call log *)

(** The sessions whose teardown closure was entered, one entry per run, in
    order. *)
Definition onCloseRuns (cs : list Call) : list string :=
  omap (fun c => match c with OnClose sid => Some sid | _ => None end) cs.

(** The users for whom [DeleteAllEvents] was called, in order. *)
Definition DeleteAllEventsCalls (cs : list Call) : list string :=
  omap (fun c => match c with DeleteAllEvents u => Some u | _ => None end) cs.

(** The responses written with [ctx.JSON], in order. *)
Definition responses (cs : list Call) : list (Z * Body) :=
  omap (fun c => match c with JSON st b => Some (st, b) | _ => None end) cs.

(** The cookies set with [ctx.SetCookie], as (name, value), in order. *)
Definition cookies (cs : list Call) : list (string * string) :=
  omap (fun c => match c with
                 | SetCookie name value _ _ _ _ _ => Some (name, value)
                 | _ => None
                 end) cs.

(** The table is keyed by session ID: [Auth], the only code that stores a
    session, stores it under [session.ID]. *)
Definition keyedByID (m : gmap string Session) : Prop :=
  forall k s, m !! k = Some s -> ID s = k.

(** *** The teardown closure

    The function literal that [Auth] passes to [NewSession].  It captures
    [api] and the variable [session]; [session] is assigned once, so the
    closure is a function of the session record. *)
Definition onClose (session : Session) : M unit :=
  call (OnClose (ID session)) ;;
  modifySessions (delete (ID session)) ;;
  (* Check if there are remaining sessions for this user *)
  ss <- getSessions ;;
  if existsb (fun s => String.eqb (UserID s) (UserID session))
             (snd <$> map_to_list ss)
  then ret tt
  else
    (* Stop producing events for this user *)
    call (DeleteAllEvents (UserID session)).

(** Modelled from the spec: [NewSession], declared outside the embedded file.
    The spec's [create(userID, onClose)] allocates a fresh ID and a fresh
    token and returns the session owned by [userID]; the two strings the
    generator draws are inputs here. *)
Definition NewSession (newID newToken userID : string) : Session :=
  {| ID := newID; UserID := userID; Token := newToken |}.

(** *** Sample data, used to run the handlers on concrete requests *)

(** A backend with two accounts: [alice] has one key, [bob] has none; every
    other login fails. *)
Definition sampleBackend : backend.Backend :=
  {| backend.User := string;
     backend.User_ID := fun u => u;
     backend.GetMainAddress := fun u =>
       if String.eqb u "alice"
       then {| backend.Keys := [ {| backend.PrivateKey := "alice-key" |} ] |}
       else {| backend.Keys := [] |};
     backend.Encrypt := fun kp t => Success ("enc:" +:+ t);
     backend.Auth := fun username password =>
       if String.eqb username "alice" || String.eqb username "bob"
       then Success username
       else Failure "Invalid username or password";
     backend.GetLastEvent := fun u => Success {| backend.ID := "event-0" |} |}.

(** Sample values for the response codes. *)
Definition sampleOk : Z := 1000.
Definition sampleBadRequest : Z := 400.
Definition sampleUnauthorized : Z := 401.
Definition sampleInternalServerError : Z := 500.

Definition sampleMarshal (c : AuthCookie) : string :=
  "{AccessToken:" +:+ AccessToken c +:+ ",UID:" +:+ Uid c +:+ "}".

Definition samplePopulate (u : string) : result string := Success u.

Definition sampleSession : Session :=
  {| ID := "s1"; UserID := "alice"; Token := "t1" |}.

Definition sampleSession2 : Session :=
  {| ID := "s2"; UserID := "alice"; Token := "t2" |}.

(** A session whose token contains a space. *)
Definition spacedSession : Session :=
  {| ID := "s3"; UserID := "bob"; Token := "a b" |}.

(** A session stored under the key that [DeleteAuth] deletes. *)
Definition literalSession : Session :=
  {| ID := "sessionToken"; UserID := "bob"; Token := "t4" |}.

Definition worldOf (ss : list Session) : World :=
  {| sessions := list_to_map ((fun s => (ID s, s)) <$> ss); calls := [] |}.

Definition bearerRequest (uid token : string) : Context :=
  {| Header := {[ "Authorization" := ["Bearer " +:+ token] ]};
     getUid := uid;
     getSessionToken := token |}.

(** A request whose [Authorization] header holds the single value [h]. *)
Definition headerRequest (uid h : string) : Context :=
  {| Header := {[ "Authorization" := [h] ]};
     getUid := uid;
     getSessionToken := "" |}.

(** A request whose [Authorization] header holds two values. *)
Definition twoValueRequest (uid h h' : string) : Context :=
  {| Header := {[ "Authorization" := [h; h'] ]};
     getUid := uid;
     getSessionToken := "" |}.

Definition emptyAuthCookiesReq : AuthCookiesReq :=
  {| AuthCookiesReq_ClientID := ""; AuthCookiesReq_RefreshToken := "";
     RedirectURI := ""; State := "" |}.

Definition loginOf (username : string) : AuthReq :=
  {| AuthReq_ClientID := ""; AuthReq_ClientSecret := "";
     Username := username; Password := "secret"; TwoFactorCode := "" |}.

(** A backend on which the later steps of a login fail: the key of [carol]
    cannot encrypt, the last event of [dave] cannot be read; [alice] logs in
    without trouble. *)
Definition brittleBackend : backend.Backend :=
  {| backend.User := string;
     backend.User_ID := fun u => u;
     backend.GetMainAddress := fun u =>
       {| backend.Keys := [ {| backend.PrivateKey := u +:+ "-key" |};
                            {| backend.PrivateKey := u +:+ "-old-key" |} ] |};
     backend.Encrypt := fun kp t =>
       if String.eqb (backend.PrivateKey kp) "carol-key"
       then Failure "cannot encrypt"
       else Success ("enc:" +:+ t);
     backend.Auth := fun username password => Success username;
     backend.GetLastEvent := fun u =>
       if String.eqb u "dave"
       then Failure "no event"
       else Success {| backend.ID := "event-7" |} |}.

Definition failingPopulate (u : string) : result string :=
  Failure "cannot populate".

Section Handlers.

Context `{B : backend.Backend}.

(** The response codes are constants declared outside the embedded file. *)
Variables Ok BadRequest Unauthorized InternalServerError : Z.

(** [api.populateCurrentUser(user)] is declared outside the embedded file.  It
    works on the user through its pointer; the user it leaves behind is its
    result here. *)
Variable populateCurrentUser : backend.User -> result backend.User.

(** [json.Marshal] of the standard library, at type [AuthCookie]. *)
Variable json_Marshal : AuthCookie -> string.

(** Modelled from the spec: [newErrorResp], declared outside the embedded
    file.  The spec has every failure converted to an envelope
    [{ResponseCode, Error, ErrorDescription}] whose description is the
    error's message; it fixes neither the code nor the kind of the generic
    envelope, which stay parameters. *)
Variable newErrorResp_code : Z.
Variable newErrorResp_kind : string.

Definition newErrorResp (err : string) : ErrorResp :=
  {| ErrorResp_Resp := {| ResponseCode := newErrorResp_code |};
     Error := newErrorResp_kind;
     ErrorDescription := err |}.

Definition errorBody (code : Z) (kind description : string) : Body :=
  ErrorBody {| ErrorResp_Resp := {| ResponseCode := code |};
               Error := kind;
               ErrorDescription := description |}.

(** [Auth].  [newID] and [newToken] are the strings [NewSession] draws. *)
Definition Auth (newID newToken : string) (ctx : Context) (req : AuthReq) : M unit :=
  match backend.Auth (Username req) (Password req) with
  | Failure err =>
      call (JSON 200 (errorBody Unauthorized "invalid_grant" err))
  | Success user =>
      match populateCurrentUser user with
      | Failure err => call (JSON 200 (ErrorBody (newErrorResp err)))
      | Success user =>
          let session := NewSession newID newToken (backend.User_ID user) in
          modifySessions (insert (ID session) session) ;;
          let addr := backend.GetMainAddress user in
          match backend.Keys addr with
          | [] =>
              call (JSON 200 (ErrorBody (newErrorResp "User has no private key")))
          | kp :: _ =>
              match backend.Encrypt kp (Token session) with
              | Failure err =>
                  call (JSON 200 (errorBody InternalServerError "invalid_key" err))
              | Success encryptedToken =>
                  match backend.GetLastEvent (backend.User_ID user) with
                  | Failure err => call (JSON 500 (ErrorBody (newErrorResp err)))
                  | Success lastEvent =>
                      call (JSON 200 (AuthBody
                        {| AuthResp_Resp := {| ResponseCode := Ok |};
                           AuthResp_AccessToken := encryptedToken;
                           ExpiresIn := 360000;
                           AuthResp_TokenType := TokenBearer;
                           Scope := "full mail payments reset keys";
                           AuthResp_Uid := ID session;
                           AuthResp_RefreshToken := "refresh_token";
                           UserStatus := 0;
                           AuthResp_PrivateKey := backend.PrivateKey kp;
                           KeySalt := "";
                           EventID := backend.ID lastEvent |}))
                  end
              end
          end
      end
  end.

Definition AuthInfo (ctx : Context) (req : AuthInfoReq) : M unit :=
  call (JSON 200 (AuthInfoBody
    {| AuthInfoResp_Resp := {| ResponseCode := Ok |};
       Modulus := ""; ServerEphemeral := ""; Version := 0; Salt := "";
       SRPSession := ""; TwoFactor := 0 |})).

Definition invalidAuthorization : M unit :=
  call (JSON 200 (errorBody BadRequest "invalid_authorization"
                            "Invalid authorization header")).

Definition AuthCookies (ctx : Context) (req : AuthCookiesReq) : M unit :=
  let uid := getUid ctx in
  if String.eqb uid "" then
    call (JSON 200 (errorBody BadRequest "invalid_grant" "No uid provided"))
  else
    ss <- getSessions ;;
    match ss !! uid with
    | None =>
        call (JSON 200 (errorBody BadRequest "invalid_session" "Invalid UID"))
    | Some session =>
        match Header ctx !! "Authorization" with
        | None | Some [] => invalidAuthorization
        | Some (auth0 :: _) =>
            match GoStrings.SplitN auth0 " " 2 with
            | [tokenType; token] =>
                if negb (String.eqb tokenType TokenBearer)
                   || negb (String.eqb token (Token session))
                then invalidAuthorization
                else
                  let authCookie :=
                    json_Marshal {| AccessToken := Token session;
                                    Uid := ID session |} in
                  call (SetCookie ("AUTH-" +:+ Token session) authCookie
                                  0 "/api/" "" false true) ;;
                  call (JSON 200 (AuthCookiesBody
                    {| AuthCookiesResp_Resp := {| ResponseCode := Ok |};
                       SessionToken := Token session |}))
            | _ => (* len(parts) != 2 *) invalidAuthorization
            end
        end
    end.

Definition DeleteAuth (ctx : Context) : M unit :=
  let sessionToken := getSessionToken ctx in
  (if negb (String.eqb sessionToken "") then
     call (SetCookie ("AUTH-" +:+ sessionToken) "" 0 "/api/" "" false true) ;;
     modifySessions (delete "sessionToken")
   else ret tt) ;;
  call (JSON 200 (RespBody {| ResponseCode := Ok |})).

(** What a successful cookie promotion for [session] adds to the log. *)
Definition promoted (session : Session) : list Call :=
  [ SetCookie ("AUTH-" +:+ Token session)
              (json_Marshal {| AccessToken := Token session; Uid := ID session |})
              0 "/api/" "" false true;
    JSON 200 (AuthCookiesBody
      {| AuthCookiesResp_Resp := {| ResponseCode := Ok |};
         SessionToken := Token session |}) ].

(** What a rejected cookie promotion adds to the log. *)
Definition rejected (kind description : string) : list Call :=
  [ JSON 200 (ErrorBody {| ErrorResp_Resp := {| ResponseCode := BadRequest |};
                           Error := kind;
                           ErrorDescription := description |}) ].

(** Unfolds the monad and leaves the final world in record form. *)
Ltac run_handler :=
  unfold emitted, exec, bind, call, modifySessions, getSessions, ret,
    invalidAuthorization, promoted, rejected, errorBody in *;
  cbn [fst snd sessions calls] in *.

(** Closes a goal on the calls added to a log. *)
Ltac read_log :=
  rewrite <- ?app_assoc; try apply drop_app_length.

(** *** Running a handler *)

Lemma emitted_of_calls {A} (m : M A) (w : World) (l : list Call) :
  calls (exec m w) = calls w ++ l -> emitted m w = l.
Proof. unfold emitted. intros ->. apply drop_app_length. Qed.

Lemma exec_bind {A C} (m : M A) (k : A -> M C) (w : World) :
  exec (bind m k) w = exec (k (fst (m w))) (exec m w).
Proof. unfold exec, bind. destruct (m w); reflexivity. Qed.

Lemma exec_call (c : Call) (w : World) :
  exec (call c) w = {| sessions := sessions w; calls := calls w ++ [c] |}.
Proof. reflexivity. Qed.

Lemma exec_modifySessions f (w : World) :
  exec (modifySessions f) w = {| sessions := f (sessions w); calls := calls w |}.
Proof. reflexivity. Qed.

(** *** [DeleteAuth] *)

Lemma DeleteAuth_sessions (ctx : Context) (w : World) :
  sessions (exec (DeleteAuth ctx) w) =
    if String.eqb (getSessionToken ctx) ""
    then sessions w
    else delete "sessionToken" (sessions w).
Proof.
  unfold DeleteAuth. run_handler.
  destruct (String.eqb (getSessionToken ctx) ""); reflexivity.
Qed.

Lemma DeleteAuth_emitted (ctx : Context) (w : World) :
  emitted (DeleteAuth ctx) w =
    (if String.eqb (getSessionToken ctx) ""
     then []
     else [SetCookie ("AUTH-" +:+ getSessionToken ctx) "" 0 "/api/" "" false true])
    ++ [JSON 200 (RespBody {| ResponseCode := Ok |})].
Proof.
  unfold DeleteAuth. run_handler.
  destruct (String.eqb (getSessionToken ctx) ""); cbn; read_log.
Qed.

(** C9. Every revocation request is answered with the generic success
    envelope: whatever token the request resolves to (none included) and
    whatever the session table holds, [DeleteAuth] writes exactly one
    response, with status 200 and body [Resp{Ok}]. *)
Theorem DeleteAuth_always_Ok (ctx : Context) (w : World) :
  responses (emitted (DeleteAuth ctx) w)
  = [(200, RespBody {| ResponseCode := Ok |})].
Proof.
  rewrite DeleteAuth_emitted.
  destruct (String.eqb (getSessionToken ctx) ""); reflexivity.
Qed.

(** *** The teardown closure *)

(** The scan of the closure, as a proposition on the table it ranges over. *)
Lemma scan_finds_user (u : string) (m : gmap string Session) :
  existsb (fun s => String.eqb (UserID s) u) (snd <$> map_to_list m) = true
  <-> exists k s, m !! k = Some s /\ UserID s = u.
Proof.
  rewrite existsb_exists. split.
  - intros (s & Hin & Heq). apply list_elem_of_In in Hin.
    apply list_elem_of_fmap in Hin as ([k s'] & -> & Hks).
    apply elem_of_map_to_list in Hks. apply String.eqb_eq in Heq. eauto.
  - intros (k & s & Hks & Heq). exists s. split.
    + apply list_elem_of_In, list_elem_of_fmap. exists (k, s). split; [done|].
      by apply elem_of_map_to_list.
    + by apply String.eqb_eq.
Qed.

Lemma onClose_sessions (session : Session) (w : World) :
  sessions (exec (onClose session) w) = delete (ID session) (sessions w).
Proof.
  unfold onClose. run_handler.
  destruct (existsb _ _); reflexivity.
Qed.

Lemma onClose_emitted (session : Session) (w : World) :
  emitted (onClose session) w =
    OnClose (ID session)
      :: (if existsb (fun s => String.eqb (UserID s) (UserID session))
                     (snd <$> map_to_list (delete (ID session) (sessions w)))
          then []
          else [DeleteAllEvents (UserID session)]).
Proof.
  unfold onClose. run_handler.
  destruct (existsb _ _); cbn; read_log.
Qed.

(** C3. When a session's teardown closure runs, the session's entry is
    gone from the table afterwards, and [DeleteAllEvents] is called for the
    session's user (once) exactly when no session of that user remains in the
    table, and not at all otherwise.  In particular a second session of the
    same user, stored under another ID when the closure runs, prevents the
    call. *)
Theorem onClose_stops_events_for_last_session (session : Session) (w : World) :
  let w' := exec (onClose session) w in
  let remains := exists k s, sessions w' !! k = Some s /\ UserID s = UserID session in
  sessions w' !! ID session = None
  /\ (~ remains ->
      DeleteAllEventsCalls (emitted (onClose session) w) = [UserID session])
  /\ (remains -> DeleteAllEventsCalls (emitted (onClose session) w) = [])
  /\ (forall k s2,
        k <> ID session -> sessions w !! k = Some s2 ->
        UserID s2 = UserID session ->
        DeleteAllEventsCalls (emitted (onClose session) w) = [])
  /\ (keyedByID (sessions w) -> forall k, sessions w' !! k <> Some session).
Proof.
  intros w' remains. subst w' remains.
  rewrite onClose_sessions, onClose_emitted.
  pose proof (scan_finds_user (UserID session)
                (delete (ID session) (sessions w))) as Hscan.
  assert (Hgone : keyedByID (sessions w) ->
                  forall k, delete (ID session) (sessions w) !! k <> Some session).
  { intros Hkeyed k Hk. apply lookup_delete_Some in Hk as [Hne Hk].
    apply Hkeyed in Hk. congruence. }
  destruct (existsb _ _) eqn:E.
  - split; [apply lookup_delete_eq|]. split; [|split; [|split]].
    + intros Hno. exfalso. apply Hno. by apply Hscan.
    + reflexivity.
    + reflexivity.
    + exact Hgone.
  - assert (Hnone : ~ exists k s, delete (ID session) (sessions w) !! k = Some s
                                  /\ UserID s = UserID session).
    { intros H. apply Hscan in H. congruence. }
    split; [apply lookup_delete_eq|]. split; [|split; [|split]].
    + reflexivity.
    + intros H. by destruct Hnone.
    + intros k s2 Hk Hs2 Hu. destruct Hnone. exists k, s2.
      split; [|done]. by rewrite lookup_delete_ne.
    + exact Hgone.
Qed.

(** Every step of the embedded code keeps the table keyed by session ID. *)
Lemma keyedByID_delete (k : string) (m : gmap string Session) :
  keyedByID m -> keyedByID (delete k m).
Proof. intros Hm k' s [_ Hs]%lookup_delete_Some. by apply Hm. Qed.

Lemma keyedByID_insert (s : Session) (m : gmap string Session) :
  keyedByID m -> keyedByID (<[ID s := s]> m).
Proof.
  intros Hm k' s' [[<- <-]|[_ Hs]]%lookup_insert_Some; [done | by apply Hm].
Qed.

Lemma onClose_keyedByID (session : Session) (w : World) :
  keyedByID (sessions w) -> keyedByID (sessions (exec (onClose session) w)).
Proof. rewrite onClose_sessions. apply keyedByID_delete. Qed.

Lemma DeleteAuth_keyedByID (ctx : Context) (w : World) :
  keyedByID (sessions w) -> keyedByID (sessions (exec (DeleteAuth ctx) w)).
Proof.
  rewrite DeleteAuth_sessions. destruct (String.eqb _ _); [done|].
  apply keyedByID_delete.
Qed.

(** *** [Auth] *)

(** C5. When the backend rejects the credentials, [Auth] answers with the
    [Unauthorized] envelope of kind [invalid_grant] whose description is the
    backend's error message, makes no other call, and leaves the session
    table as it was: no session is created. *)
Theorem Auth_rejected_credentials
    (newID newToken : string) (ctx : Context) (req : AuthReq) (w : World)
    (err : string) :
  backend.Auth (Username req) (Password req) = Failure err ->
  emitted (Auth newID newToken ctx req) w
  = [JSON 200 (ErrorBody {| ErrorResp_Resp := {| ResponseCode := Unauthorized |};
                            Error := "invalid_grant";
                            ErrorDescription := err |})]
  /\ sessions (exec (Auth newID newToken ctx req) w) = sessions w.
Proof.
  intros Hauth. unfold Auth. rewrite Hauth. run_handler.
  split; [read_log | reflexivity].
Qed.

(** C4. When the credentials are accepted, the user is populated and the
    user's main address has no key, [Auth] answers with the error envelope
    built from ["User has no private key"], whose description is that
    message, and the session it has just stored is still in the table: the
    table after the request is the one before it with the new session put
    under its ID. *)
Theorem Auth_no_private_key
    (newID newToken : string) (ctx : Context) (req : AuthReq) (w : World)
    (user user' : backend.User) :
  backend.Auth (Username req) (Password req) = Success user ->
  populateCurrentUser user = Success user' ->
  backend.Keys (backend.GetMainAddress user') = [] ->
  let session := NewSession newID newToken (backend.User_ID user') in
  let w' := exec (Auth newID newToken ctx req) w in
  (exists e, emitted (Auth newID newToken ctx req) w = [JSON 200 (ErrorBody e)]
             /\ ErrorDescription e = "User has no private key")
  /\ sessions w' !! ID session = Some session
  /\ sessions w' = <[ID session := session]> (sessions w).
Proof.
  intros Hauth Hpop Hkeys session w'. subst session w'.
  unfold Auth. rewrite Hauth, Hpop, Hkeys. run_handler.
  split; [|split].
  - eexists. split; [read_log | reflexivity].
  - apply lookup_insert_eq.
  - reflexivity.
Qed.

Lemma Auth_keyedByID
    (newID newToken : string) (ctx : Context) (req : AuthReq) (w : World) :
  keyedByID (sessions w) ->
  keyedByID (sessions (exec (Auth newID newToken ctx req) w)).
Proof.
  intros Hw. unfold Auth.
  destruct (backend.Auth _ _) as [user|err]; [|exact Hw].
  destruct (populateCurrentUser user) as [user'|err]; [|exact Hw].
  pose proof (keyedByID_insert
                (NewSession newID newToken (backend.User_ID user')) _ Hw) as Hins.
  run_handler.
  destruct (backend.Keys _) as [|kp ?]; [exact Hins|].
  destruct (backend.Encrypt _ _); [|exact Hins].
  destruct (backend.GetLastEvent _); exact Hins.
Qed.

(** *** Splitting at the first space *)

Lemma append_String (c : Ascii.ascii) (a b : string) :
  String c a +:+ b = String c (a +:+ b).
Proof. reflexivity. Qed.

Lemma append_empty (b : string) : "" +:+ b = b.
Proof. reflexivity. Qed.

Lemma prefix_empty (s : string) : String.prefix "" s = true.
Proof. destruct s; reflexivity. Qed.

Lemma substring_whole (s : string) :
  String.substring 0 (String.length s) s = s.
Proof. induction s as [|c s IH]; cbn; [reflexivity | by rewrite IH]. Qed.

Lemma length_append (a b : string) :
  String.length (a +:+ b) = (String.length a + String.length b)%nat.
Proof.
  induction a as [|c a IH]; [reflexivity|].
  rewrite append_String. cbn. by rewrite IH.
Qed.

Lemma substring_before (a b : string) :
  String.substring 0 (String.length a) (a +:+ b) = a.
Proof.
  induction a as [|c a IH].
  - rewrite append_empty. destruct b; reflexivity.
  - rewrite append_String. cbn. by rewrite IH.
Qed.

Lemma substring_after (a b : string) (n : nat) :
  String.substring (String.length a) n (a +:+ b) = String.substring 0 n b.
Proof.
  induction a as [|c a IH]; [reflexivity|].
  rewrite append_String. cbn. apply IH.
Qed.

Lemma Contains_space_index (h : string) :
  GoStrings.Contains h " " = false <-> String.index 0 " " h = None.
Proof.
  unfold GoStrings.Contains. destruct (String.index 0 " " h); split; congruence.
Qed.

Lemma index_first_space (a b : string) :
  String.index 0 " " a = None ->
  String.index 0 " " (a +:+ String " "%char b) = Some (String.length a).
Proof.
  induction a as [|c a IH]; intros Hno.
  - rewrite append_empty. cbn. by rewrite prefix_empty.
  - rewrite append_String. cbn -[Ascii.ascii_dec] in Hno |- *.
    destruct (Ascii.ascii_dec " "%char c) as [Hc|Hc].
    + rewrite prefix_empty in Hno. discriminate.
    + destruct (String.index 0 " " a) eqn:E; [discriminate|].
      by rewrite IH.
Qed.

(** A string with a space is cut at its first space, and only there. *)
Lemma SplitN_first_space (a b : string) :
  GoStrings.Contains a " " = false ->
  GoStrings.SplitN (a +:+ " " +:+ b) " " 2 = [a; b].
Proof.
  intros Hno%Contains_space_index.
  change (a +:+ " " +:+ b) with (a +:+ String " "%char b).
  unfold GoStrings.SplitN. cbn [Z.eqb String.eqb Ascii.eqb Bool.eqb].
  cbn [Z.ltb Z.compare].
  set (len := Z.of_nat _).
  assert (Hlen : 1 <= len).
  { subst len. rewrite length_append. cbn [String.length]. lia. }
  replace (if 2 >? len + 1 then len + 1 else 2) with 2
    by (destruct (Z.gtb_spec 2 (len + 1)); lia).
  change (Z.to_nat (2 - 1)) with 1%nat. cbn [GoStrings.cutLoop].
  rewrite index_first_space by done.
  rewrite substring_before. f_equal. f_equal.
  rewrite length_append. cbn [String.length].
  replace (a +:+ String " "%char b) with ((a +:+ " ") +:+ b).
  2:{ clear. induction a; [reflexivity|]. rewrite !append_String. by f_equal. }
  replace (String.length a + 1)%nat with (String.length (a +:+ " "))
    by (rewrite length_append; reflexivity).
  rewrite substring_after.
  replace (_ - _)%nat with (String.length b)
    by (rewrite length_append; cbn [String.length]; lia).
  apply substring_whole.
Qed.

(** A string without a space is not cut. *)
Lemma SplitN_no_space (h : string) :
  GoStrings.Contains h " " = false -> GoStrings.SplitN h " " 2 = [h].
Proof.
  intros Hno%Contains_space_index.
  unfold GoStrings.SplitN. cbn [Z.eqb String.eqb Ascii.eqb Bool.eqb].
  destruct (Z.to_nat _); cbn [GoStrings.cutLoop]; [reflexivity|].
  by rewrite Hno.
Qed.

Lemma SplitN_Bearer (rest : string) :
  GoStrings.SplitN ("Bearer " +:+ rest) " " 2 = ["Bearer"; rest].
Proof. apply (SplitN_first_space "Bearer" rest). reflexivity. Qed.

(** *** [AuthCookies] *)

Lemma AuthCookies_sessions (ctx : Context) (req : AuthCookiesReq) (w : World) :
  sessions (exec (AuthCookies ctx req) w) = sessions w.
Proof.
  unfold AuthCookies. run_handler.
  destruct (String.eqb (getUid ctx) ""); [reflexivity|].
  destruct (sessions w !! getUid ctx) as [session|]; [|reflexivity].
  destruct (Header ctx !! "Authorization") as [[|auth0 ?]|]; try reflexivity.
  destruct (GoStrings.SplitN auth0 " " 2) as [|? [|? [|? ?]]]; try reflexivity.
  destruct (_ || _); reflexivity.
Qed.

(** The calls of [AuthCookies], branch by branch. *)
Lemma AuthCookies_emitted (ctx : Context) (req : AuthCookiesReq) (w : World) :
  emitted (AuthCookies ctx req) w =
    if String.eqb (getUid ctx) "" then rejected "invalid_grant" "No uid provided"
    else match sessions w !! getUid ctx with
         | None => rejected "invalid_session" "Invalid UID"
         | Some session =>
             let bad := rejected "invalid_authorization"
                                 "Invalid authorization header" in
             match Header ctx !! "Authorization" with
             | None | Some [] => bad
             | Some (auth0 :: _) =>
                 match GoStrings.SplitN auth0 " " 2 with
                 | [tokenType; token] =>
                     if String.eqb tokenType TokenBearer
                        && String.eqb token (Token session)
                     then promoted session
                     else bad
                 | _ => bad
                 end
             end
         end.
Proof.
  unfold AuthCookies. run_handler.
  destruct (String.eqb (getUid ctx) ""); [read_log|].
  destruct (sessions w !! getUid ctx) as [session|]; [|read_log].
  destruct (Header ctx !! "Authorization") as [[|auth0 ?]|]; try read_log.
  destruct (GoStrings.SplitN auth0 " " 2) as [|tokenType [|token [|? ?]]];
    try read_log.
  destruct (String.eqb tokenType TokenBearer),
           (String.eqb token (Token session)); cbn; read_log.
Qed.

Lemma eqb_nonempty (uid : string) : uid <> "" -> String.eqb uid "" = false.
Proof. apply String.eqb_neq. Qed.

(** C6. Cookie promotion round trip.  Let [session] be live, stored under
    its ID [U], with token [T].  A request that carries the identifier [U]
    ([getUid] answers the empty string when a request carries none) and whose
    [Authorization] header reads [Bearer T] succeeds: it sets the cookie
    [AUTH-T], whose value is the JSON of [{AccessToken: T, UID: U}], and
    answers [Ok] with [SessionToken] equal to [T]. *)
Theorem AuthCookies_round_trip
    (ctx : Context) (req : AuthCookiesReq) (w : World)
    (session : Session) (more : list string) :
  sessions w !! ID session = Some session ->
  getUid ctx = ID session ->
  getUid ctx <> "" ->
  Header ctx !! "Authorization" = Some (("Bearer " +:+ Token session) :: more) ->
  emitted (AuthCookies ctx req) w
  = [ SetCookie ("AUTH-" +:+ Token session)
                (json_Marshal {| AccessToken := Token session;
                                 Uid := ID session |})
                0 "/api/" "" false true;
      JSON 200 (AuthCookiesBody
        {| AuthCookiesResp_Resp := {| ResponseCode := Ok |};
           SessionToken := Token session |}) ].
Proof.
  intros Hlive Huid Hne Hhdr.
  rewrite AuthCookies_emitted, (eqb_nonempty _ Hne), Huid, Hlive, Hhdr.
  cbn zeta. rewrite SplitN_Bearer.
  change (String.eqb "Bearer" TokenBearer) with true.
  by rewrite String.eqb_refl.
Qed.

(** C7, as amended. The rejections of the Cookie Promotion Flow, in the
    order of its checks: an empty identifier gives [invalid_grant]; a
    non-empty identifier under which the table holds no session gives
    [invalid_session]; for an identifier that resolves to a session, a
    missing [Authorization] header, a header without a space (the split at
    the first space gives fewer than two parts), a header whose part before
    the first space is not [Bearer], and a header whose remainder after the
    first space is not the session's token all give
    [invalid_authorization]. *)
Theorem AuthCookies_rejections
    (ctx : Context) (req : AuthCookiesReq) (w : World) :
  let out := emitted (AuthCookies ctx req) w in
  let bad := rejected "invalid_authorization" "Invalid authorization header" in
  (getUid ctx = "" -> out = rejected "invalid_grant" "No uid provided")
  /\ (getUid ctx <> "" -> sessions w !! getUid ctx = None ->
      out = rejected "invalid_session" "Invalid UID")
  /\ (forall session,
        getUid ctx <> "" -> sessions w !! getUid ctx = Some session ->
        (Header ctx !! "Authorization" = None -> out = bad)
        /\ (Header ctx !! "Authorization" = Some [] -> out = bad)
        /\ (forall h more,
              Header ctx !! "Authorization" = Some (h :: more) ->
              (GoStrings.Contains h " " = false -> out = bad)
              /\ (forall a b,
                    h = a +:+ " " +:+ b ->
                    GoStrings.Contains a " " = false ->
                    a <> TokenBearer \/ b <> Token session ->
                    out = bad))).
Proof.
  intros out bad. subst out bad. rewrite AuthCookies_emitted.
  split; [|split].
  - intros ->. reflexivity.
  - intros Hne Hnone. by rewrite (eqb_nonempty _ Hne), Hnone.
  - intros session Hne Hsome. rewrite (eqb_nonempty _ Hne), Hsome. cbn zeta.
    split; [|split].
    + by intros ->.
    + by intros ->.
    + intros h more ->. split.
      * intros Hno. by rewrite SplitN_no_space.
      * intros a b -> Hno Hbad. rewrite SplitN_first_space by done.
        destruct Hbad as [Ha|Hb].
        -- apply String.eqb_neq in Ha. by rewrite Ha.
        -- apply String.eqb_neq in Hb. rewrite Hb.
           by destruct (String.eqb a TokenBearer).
Qed.

(** C8. Cookie promotion only reads: whatever the request and whether it
    succeeds or fails, the session table after [AuthCookies] is the table
    before it, sessions included.  A cookie it sets is therefore in agreement
    with the table: it is named after the token of the session stored under
    the request's identifier and carries that session's token and ID. *)
Theorem AuthCookies_reads_only
    (ctx : Context) (req : AuthCookiesReq) (w : World) :
  sessions (exec (AuthCookies ctx req) w) = sessions w
  /\ (forall name value,
        In (name, value) (cookies (emitted (AuthCookies ctx req) w)) ->
        exists session,
          sessions (exec (AuthCookies ctx req) w) !! getUid ctx = Some session
          /\ name = "AUTH-" +:+ Token session
          /\ value = json_Marshal {| AccessToken := Token session;
                                     Uid := ID session |}).
Proof.
  split; [apply AuthCookies_sessions|].
  intros name value. rewrite AuthCookies_sessions, AuthCookies_emitted.
  destruct (String.eqb (getUid ctx) ""); [intros []|].
  destruct (sessions w !! getUid ctx) as [session|]; [|intros []].
  cbn zeta.
  destruct (Header ctx !! "Authorization") as [[|auth0 ?]|]; try intros [].
  destruct (GoStrings.SplitN auth0 " " 2) as [|tokenType [|token [|? ?]]];
    try intros [].
  destruct (_ && _); [|intros []].
  intros [[= <- <-]|[]]. eauto.
Qed.

(** C10. The [Authorization] header is cut at its first space only.  A
    header [Bearer <rest>] always splits into the two parts [Bearer] and
    [<rest>], spaces in [<rest>] included, so the check on the number of
    parts passes; for an identifier that resolves to a session the request
    then succeeds exactly when [<rest>] is the session's token, and is
    rejected as [invalid_authorization] otherwise.  A token with spaces is
    thus accepted through such a header. *)
Theorem AuthCookies_splits_at_first_space :
  (forall rest, GoStrings.SplitN ("Bearer " +:+ rest) " " 2 = ["Bearer"; rest])
  /\ (forall (ctx : Context) (req : AuthCookiesReq) (w : World)
             (session : Session) (rest : string) (more : list string),
        getUid ctx <> "" ->
        sessions w !! getUid ctx = Some session ->
        Header ctx !! "Authorization" = Some (("Bearer " +:+ rest) :: more) ->
        (emitted (AuthCookies ctx req) w = promoted session
         <-> rest = Token session)
        /\ (rest <> Token session ->
            emitted (AuthCookies ctx req) w
            = rejected "invalid_authorization" "Invalid authorization header")).
Proof.
  split; [apply SplitN_Bearer|].
  intros ctx req w session rest more Hne Hsome Hhdr.
  rewrite AuthCookies_emitted, (eqb_nonempty _ Hne), Hsome, Hhdr.
  cbn zeta. rewrite SplitN_Bearer.
  change (String.eqb "Bearer" TokenBearer) with true. cbn [andb].
  destruct (String.eqb_spec rest (Token session)) as [Heq|Hneq].
  - split; [split; auto | intros; contradiction].
  - split; [split; [discriminate | contradiction] | reflexivity].
Qed.

(** X23. [DeleteAuth] touches one key of the table only, the same for
    every request: an entry under any key other than ["sessionToken"] is
    after a revocation what it was before. *)
Lemma DeleteAuth_other_keys (ctx : Context) (w : World) (k : string) :
  k <> "sessionToken" ->
  sessions (exec (DeleteAuth ctx) w) !! k = sessions w !! k.
Proof.
  intros Hk. rewrite DeleteAuth_sessions.
  destruct (String.eqb _ _); [reflexivity|]. by rewrite lookup_delete_ne.
Qed.

(** *** More on [Auth] *)

(** The table after [Auth], path by path. *)
Lemma Auth_sessions
    (newID newToken : string) (ctx : Context) (req : AuthReq) (w : World) :
  sessions (exec (Auth newID newToken ctx req) w) =
    match backend.Auth (Username req) (Password req) with
    | Failure _ => sessions w
    | Success user =>
        match populateCurrentUser user with
        | Failure _ => sessions w
        | Success user' =>
            <[newID := NewSession newID newToken (backend.User_ID user')]>
              (sessions w)
        end
    end.
Proof.
  unfold Auth.
  destruct (backend.Auth _ _) as [user|err]; [|reflexivity].
  destruct (populateCurrentUser user) as [user'|err]; [|reflexivity].
  run_handler.
  destruct (backend.Keys _) as [|kp ?]; [reflexivity|].
  destruct (backend.Encrypt _ _); [|reflexivity].
  destruct (backend.GetLastEvent _); reflexivity.
Qed.

(** [Auth] adds one call to the log, its response. *)
Lemma Auth_emitted_response
    (newID newToken : string) (ctx : Context) (req : AuthReq) (w : World) :
  exists st body, emitted (Auth newID newToken ctx req) w = [JSON st body].
Proof.
  unfold Auth.
  destruct (backend.Auth _ _) as [user|err];
    [|run_handler; do 2 eexists; read_log].
  destruct (populateCurrentUser user) as [user'|err];
    [|run_handler; do 2 eexists; read_log].
  run_handler.
  destruct (backend.Keys _) as [|kp ?]; [do 2 eexists; read_log|].
  destruct (backend.Encrypt _ _); [|do 2 eexists; read_log].
  destruct (backend.GetLastEvent _); do 2 eexists; read_log.
Qed.

(** X1. A login that passes every step answers 200 with the [Ok] envelope:
    the access token is the session token encrypted under the first key of
    the user's main address, the private key is that key's, [Uid] is the new
    session's ID and [EventID] the last event's.  The [Uid] it returns
    resolves in the table to a session of the authenticated user holding the
    token that was encrypted. *)
Theorem Auth_success
    (newID newToken : string) (ctx : Context) (req : AuthReq) (w : World)
    (user user' : backend.User) (kp : backend.Keypair)
    (keys : list backend.Keypair) (encryptedToken : string)
    (lastEvent : backend.Event) :
  backend.Auth (Username req) (Password req) = Success user ->
  populateCurrentUser user = Success user' ->
  backend.Keys (backend.GetMainAddress user') = kp :: keys ->
  backend.Encrypt kp newToken = Success encryptedToken ->
  backend.GetLastEvent (backend.User_ID user') = Success lastEvent ->
  emitted (Auth newID newToken ctx req) w
  = [JSON 200 (AuthBody
       {| AuthResp_Resp := {| ResponseCode := Ok |};
          AuthResp_AccessToken := encryptedToken;
          ExpiresIn := 360000;
          AuthResp_TokenType := "Bearer";
          Scope := "full mail payments reset keys";
          AuthResp_Uid := newID;
          AuthResp_RefreshToken := "refresh_token";
          UserStatus := 0;
          AuthResp_PrivateKey := backend.PrivateKey kp;
          KeySalt := "";
          EventID := backend.ID lastEvent |})]
  /\ sessions (exec (Auth newID newToken ctx req) w) !! newID
     = Some {| ID := newID; UserID := backend.User_ID user'; Token := newToken |}.
Proof.
  intros Hauth Hpop Hkeys Henc Hev. split.
  - unfold Auth. rewrite Hauth, Hpop. run_handler.
    rewrite Hkeys. cbn [Token NewSession]. rewrite Henc, Hev. cbn. read_log.
  - rewrite Auth_sessions, Hauth, Hpop. apply lookup_insert_eq.
Qed.

(** X2. When the first key cannot encrypt the token, [Auth] answers 200
    with the [InternalServerError] envelope of kind [invalid_key] carrying
    the key's error message, and the session it stored stays in the table. *)
Theorem Auth_invalid_key_keeps_session
    (newID newToken : string) (ctx : Context) (req : AuthReq) (w : World)
    (user user' : backend.User) (kp : backend.Keypair)
    (keys : list backend.Keypair) (err : string) :
  backend.Auth (Username req) (Password req) = Success user ->
  populateCurrentUser user = Success user' ->
  backend.Keys (backend.GetMainAddress user') = kp :: keys ->
  backend.Encrypt kp newToken = Failure err ->
  emitted (Auth newID newToken ctx req) w
  = [JSON 200 (ErrorBody
       {| ErrorResp_Resp := {| ResponseCode := InternalServerError |};
          Error := "invalid_key";
          ErrorDescription := err |})]
  /\ sessions (exec (Auth newID newToken ctx req) w) !! newID
     = Some {| ID := newID; UserID := backend.User_ID user'; Token := newToken |}.
Proof.
  intros Hauth Hpop Hkeys Henc. split.
  - unfold Auth. rewrite Hauth, Hpop. run_handler.
    rewrite Hkeys. cbn [Token NewSession]. rewrite Henc. cbn. read_log.
  - rewrite Auth_sessions, Hauth, Hpop. apply lookup_insert_eq.
Qed.

(** X3. When the last event of the user cannot be read, [Auth] answers with
    HTTP status 500 and the generic error envelope built from the backend's
    error; the session it stored stays in the table. *)
Theorem Auth_last_event_failure_keeps_session
    (newID newToken : string) (ctx : Context) (req : AuthReq) (w : World)
    (user user' : backend.User) (kp : backend.Keypair)
    (keys : list backend.Keypair) (encryptedToken err : string) :
  backend.Auth (Username req) (Password req) = Success user ->
  populateCurrentUser user = Success user' ->
  backend.Keys (backend.GetMainAddress user') = kp :: keys ->
  backend.Encrypt kp newToken = Success encryptedToken ->
  backend.GetLastEvent (backend.User_ID user') = Failure err ->
  emitted (Auth newID newToken ctx req) w
  = [JSON 500 (ErrorBody (newErrorResp err))]
  /\ sessions (exec (Auth newID newToken ctx req) w) !! newID
     = Some {| ID := newID; UserID := backend.User_ID user'; Token := newToken |}.
Proof.
  intros Hauth Hpop Hkeys Henc Hev. split.
  - unfold Auth. rewrite Hauth, Hpop. run_handler.
    rewrite Hkeys. cbn [Token NewSession]. rewrite Henc, Hev. cbn. read_log.
  - rewrite Auth_sessions, Hauth, Hpop. apply lookup_insert_eq.
Qed.

(** X4. When the user cannot be populated, [Auth] answers 200 with the
    generic error envelope built from that error and stores no session: the
    table is the one before the request. *)
Theorem Auth_populate_failure
    (newID newToken : string) (ctx : Context) (req : AuthReq) (w : World)
    (user : backend.User) (err : string) :
  backend.Auth (Username req) (Password req) = Success user ->
  populateCurrentUser user = Failure err ->
  emitted (Auth newID newToken ctx req) w
  = [JSON 200 (ErrorBody (newErrorResp err))]
  /\ sessions (exec (Auth newID newToken ctx req) w) = sessions w.
Proof.
  intros Hauth Hpop. split.
  - unfold Auth. rewrite Hauth, Hpop. run_handler. read_log.
  - by rewrite Auth_sessions, Hauth, Hpop.
Qed.

(** X5. [Auth] writes to one key of the table only, the ID of the session
    it creates: every entry under another key is after the request what it
    was before, on every path. *)
Theorem Auth_other_keys
    (newID newToken : string) (ctx : Context) (req : AuthReq) (w : World)
    (k : string) :
  k <> newID ->
  sessions (exec (Auth newID newToken ctx req) w) !! k = sessions w !! k.
Proof.
  intros Hk. rewrite Auth_sessions.
  destruct (backend.Auth _ _) as [user|]; [|reflexivity].
  destruct (populateCurrentUser user); [|reflexivity].
  by rewrite lookup_insert_ne.
Qed.

(** X6. An ID drawn twice.  When the table, keyed by session ID, already
    holds another session under the ID of the new one, a login that passes
    the credential and population steps replaces it: the new session is
    stored under that ID, the replaced session is nowhere in the table any
    more, and its teardown closure is not run and no [DeleteAllEvents] is
    called. *)
Theorem Auth_overwrites_without_teardown
    (newID newToken : string) (ctx : Context) (req : AuthReq) (w : World)
    (user user' : backend.User) (old : Session) :
  let new := {| ID := newID; UserID := backend.User_ID user'; Token := newToken |} in
  keyedByID (sessions w) ->
  sessions w !! newID = Some old ->
  old <> new ->
  backend.Auth (Username req) (Password req) = Success user ->
  populateCurrentUser user = Success user' ->
  sessions (exec (Auth newID newToken ctx req) w) !! newID = Some new
  /\ (forall k, sessions (exec (Auth newID newToken ctx req) w) !! k <> Some old)
  /\ onCloseRuns (emitted (Auth newID newToken ctx req) w) = []
  /\ DeleteAllEventsCalls (emitted (Auth newID newToken ctx req) w) = [].
Proof.
  intros new Hkeyed Hold Hne Hauth Hpop. subst new.
  rewrite Auth_sessions, Hauth, Hpop. split; [apply lookup_insert_eq|]. split.
  - intros k [[_ Heq]|[Hk Hin]]%lookup_insert_Some.
    + by apply Hne.
    + apply Hkeyed in Hin. apply Hkeyed in Hold. congruence.
  - destruct (Auth_emitted_response newID newToken ctx req w) as (st & body & ->).
    split; reflexivity.
Qed.

(** *** All handlers *)

(** X7. No handler tears a session down: [Auth], [AuthInfo] and
    [AuthCookies] never enter a teardown closure and never call
    [DeleteAllEvents], whatever the request and the table.  Events are
    stopped by the closure alone. *)
Theorem handlers_never_tear_down (w : World) (ctx : Context) :
  (forall newID newToken req,
      onCloseRuns (emitted (Auth newID newToken ctx req) w) = []
      /\ DeleteAllEventsCalls (emitted (Auth newID newToken ctx req) w) = [])
  /\ (forall req,
        onCloseRuns (emitted (AuthInfo ctx req) w) = []
        /\ DeleteAllEventsCalls (emitted (AuthInfo ctx req) w) = [])
  /\ (forall req,
        onCloseRuns (emitted (AuthCookies ctx req) w) = []
        /\ DeleteAllEventsCalls (emitted (AuthCookies ctx req) w) = []).
Proof.
  split; [|split].
  - intros newID newToken req.
    destruct (Auth_emitted_response newID newToken ctx req w) as (st & body & ->).
    split; reflexivity.
  - intros req. unfold AuthInfo. run_handler.
    rewrite drop_app_length. split; reflexivity.
  - intros req. rewrite AuthCookies_emitted.
    destruct (String.eqb _ _); [split; reflexivity|].
    destruct (sessions w !! getUid ctx) as [session|]; [|split; reflexivity].
    cbn zeta.
    destruct (Header ctx !! "Authorization") as [[|auth0 ?]|];
      try (split; reflexivity).
    destruct (GoStrings.SplitN auth0 " " 2) as [|? [|? [|? ?]]];
      try (split; reflexivity).
    destruct (_ && _); split; reflexivity.
Qed.

(** The HTTP statuses of the responses in a log. *)
Lemma AuthCookies_statuses (ctx : Context) (req : AuthCookiesReq) (w : World) :
  (fst <$> responses (emitted (AuthCookies ctx req) w)) = [200].
Proof.
  rewrite AuthCookies_emitted.
  destruct (String.eqb _ _); [reflexivity|].
  destruct (sessions w !! getUid ctx) as [session|]; [|reflexivity].
  cbn zeta.
  destruct (Header ctx !! "Authorization") as [[|auth0 ?]|]; try reflexivity.
  destruct (GoStrings.SplitN auth0 " " 2) as [|? [|? [|? ?]]]; try reflexivity.
  destruct (_ && _); reflexivity.
Qed.

Lemma Auth_statuses
    (newID newToken : string) (ctx : Context) (req : AuthReq) (w : World) :
  (fst <$> responses (emitted (Auth newID newToken ctx req) w)) =
    [ match backend.Auth (Username req) (Password req) with
      | Failure _ => 200
      | Success user =>
          match populateCurrentUser user with
          | Failure _ => 200
          | Success user' =>
              match backend.Keys (backend.GetMainAddress user') with
              | [] => 200
              | kp :: _ =>
                  match backend.Encrypt kp newToken with
                  | Failure _ => 200
                  | Success _ =>
                      match backend.GetLastEvent (backend.User_ID user') with
                      | Failure _ => 500
                      | Success _ => 200
                      end
                  end
              end
          end
      end ].
Proof.
  unfold Auth.
  destruct (backend.Auth _ _) as [user|e];
    [|run_handler; by rewrite drop_app_length].
  destruct (populateCurrentUser user) as [user'|e];
    [|run_handler; by rewrite drop_app_length].
  cbn [Token NewSession].
  destruct (backend.Keys _) as [|kp keys];
    [run_handler; by rewrite drop_app_length|].
  destruct (backend.Encrypt kp newToken) as [enc|e];
    [|run_handler; by rewrite drop_app_length].
  destruct (backend.GetLastEvent _) as [ev|e];
    run_handler; by rewrite drop_app_length.
Qed.

(** X8. One response per request, and its HTTP status.  Every handler
    writes exactly one response.  [AuthCookies], [DeleteAuth] and [AuthInfo]
    always answer with status 200, errors included; [Auth] answers 500
    exactly when every step up to the encryption succeeds and the last event
    cannot be read, and 200 on every other path. *)
Theorem response_statuses (w : World) (ctx : Context) :
  (forall req, (fst <$> responses (emitted (AuthCookies ctx req) w)) = [200])
  /\ (fst <$> responses (emitted (DeleteAuth ctx) w)) = [200]
  /\ (forall req, (fst <$> responses (emitted (AuthInfo ctx req) w)) = [200])
  /\ (forall newID newToken req,
        let statuses :=
          fst <$> responses (emitted (Auth newID newToken ctx req) w) in
        let lastEventFails :=
          exists user user' kp keys encryptedToken err,
            backend.Auth (Username req) (Password req) = Success user
            /\ populateCurrentUser user = Success user'
            /\ backend.Keys (backend.GetMainAddress user') = kp :: keys
            /\ backend.Encrypt kp newToken = Success encryptedToken
            /\ backend.GetLastEvent (backend.User_ID user') = Failure err in
        (lastEventFails -> statuses = [500])
        /\ (~ lastEventFails -> statuses = [200])).
Proof.
  split; [|split; [|split]].
  - intros req. apply AuthCookies_statuses.
  - rewrite DeleteAuth_emitted. by destruct (String.eqb _ _).
  - intros req. unfold AuthInfo. run_handler. by rewrite drop_app_length.
  - intros newID newToken req statuses lastEventFails.
    subst statuses lastEventFails. rewrite Auth_statuses. split.
    + intros (user & user' & kp & keys & enc & err & -> & -> & -> & -> & ->).
      reflexivity.
    + intros Hno.
      destruct (backend.Auth _ _) as [user|e]; [|done].
      destruct (populateCurrentUser user) as [user'|e] eqn:Hpop; [|done].
      destruct (backend.Keys _) as [|kp keys] eqn:Hkeys; [done|].
      destruct (backend.Encrypt kp newToken) as [enc|e] eqn:Henc; [|done].
      destruct (backend.GetLastEvent _) as [ev|e] eqn:Hev; [done|].
      exfalso. apply Hno. by exists user, user', kp, keys, enc, e.
Qed.

(** *** Login, promotion and teardown together *)

(** X9. Login, then promotion.  Once the credential and population steps
    of a login have passed, the session it stored is live whatever became of
    the later steps: a following cookie promotion that carries the new ID
    and [Bearer <new token>] succeeds. *)
Theorem login_then_promote
    (newID newToken : string) (ctx : Context) (req : AuthReq) (w : World)
    (user user' : backend.User)
    (ctx' : Context) (req' : AuthCookiesReq) (more : list string) :
  backend.Auth (Username req) (Password req) = Success user ->
  populateCurrentUser user = Success user' ->
  newID <> "" ->
  getUid ctx' = newID ->
  Header ctx' !! "Authorization" = Some (("Bearer " +:+ newToken) :: more) ->
  emitted (AuthCookies ctx' req') (exec (Auth newID newToken ctx req) w)
  = promoted {| ID := newID; UserID := backend.User_ID user'; Token := newToken |}.
Proof.
  intros Hauth Hpop Hne Huid Hhdr.
  rewrite AuthCookies_emitted, Huid, (eqb_nonempty _ Hne).
  rewrite Auth_sessions, Hauth, Hpop, lookup_insert_eq, Hhdr.
  cbn zeta. rewrite SplitN_Bearer. cbn [Token NewSession].
  change (String.eqb "Bearer" TokenBearer) with true.
  by rewrite String.eqb_refl.
Qed.

(** X10. Login, then teardown.  When the new ID is free in the table,
    running the teardown closure of the session a login stored gives back
    the table from before the login; [DeleteAllEvents] is then called for
    the user exactly when the table held no session of that user before the
    login. *)
Theorem login_then_close
    (newID newToken : string) (ctx : Context) (req : AuthReq) (w : World)
    (user user' : backend.User) :
  let session := {| ID := newID; UserID := backend.User_ID user'; Token := newToken |} in
  let w1 := exec (Auth newID newToken ctx req) w in
  let had := exists k s, sessions w !! k = Some s
                         /\ UserID s = backend.User_ID user' in
  backend.Auth (Username req) (Password req) = Success user ->
  populateCurrentUser user = Success user' ->
  sessions w !! newID = None ->
  sessions (exec (onClose session) w1) = sessions w
  /\ (had -> DeleteAllEventsCalls (emitted (onClose session) w1) = [])
  /\ (~ had -> DeleteAllEventsCalls (emitted (onClose session) w1)
               = [backend.User_ID user']).
Proof.
  intros session w1 had Hauth Hpop Hfree. subst session w1 had.
  rewrite onClose_sessions, onClose_emitted, Auth_sessions, Hauth, Hpop.
  cbn [ID UserID NewSession]. rewrite delete_insert_id by done.
  split; [reflexivity|].
  pose proof (scan_finds_user (backend.User_ID user') (sessions w)) as Hscan.
  destruct (existsb _ _).
  - split; [reflexivity|]. intros Hno. destruct Hno. by apply Hscan.
  - split; [|reflexivity]. intros Hhad. apply Hscan in Hhad. discriminate.
Qed.

(** X11. A second login keeps the events.  After two logins of the same
    user under different session IDs, tearing down the first session
    removes it and calls no [DeleteAllEvents]: the second session is still
    in the table. *)
Theorem second_login_keeps_events
    (id1 token1 id2 token2 : string) (ctx1 ctx2 : Context)
    (req1 req2 : AuthReq) (w : World) (user1 user1' user2 user2' : backend.User) :
  let s1 := {| ID := id1; UserID := backend.User_ID user1'; Token := token1 |} in
  let s2 := {| ID := id2; UserID := backend.User_ID user2'; Token := token2 |} in
  let w2 := exec (Auth id2 token2 ctx2 req2) (exec (Auth id1 token1 ctx1 req1) w) in
  backend.Auth (Username req1) (Password req1) = Success user1 ->
  populateCurrentUser user1 = Success user1' ->
  backend.Auth (Username req2) (Password req2) = Success user2 ->
  populateCurrentUser user2 = Success user2' ->
  backend.User_ID user1' = backend.User_ID user2' ->
  id1 <> id2 ->
  DeleteAllEventsCalls (emitted (onClose s1) w2) = []
  /\ sessions (exec (onClose s1) w2) !! id1 = None
  /\ sessions (exec (onClose s1) w2) !! id2 = Some s2.
Proof.
  intros s1 s2 w2 Hauth1 Hpop1 Hauth2 Hpop2 Hsame Hne. subst s1 s2 w2.
  rewrite onClose_sessions, onClose_emitted, !Auth_sessions.
  rewrite Hauth1, Hpop1, Hauth2, Hpop2. cbn [ID UserID NewSession].
  split; [|split].
  - match goal with |- context [existsb ?f ?l] => destruct (existsb f l) eqn:E end;
      [reflexivity|].
    assert (Hex : exists k s,
               delete id1 (<[id2 := NewSession id2 token2 (backend.User_ID user2')]>
                 (<[id1 := NewSession id1 token1 (backend.User_ID user1')]>
                    (sessions w))) !! k = Some s
               /\ UserID s = backend.User_ID user1').
    { exists id2, (NewSession id2 token2 (backend.User_ID user2')).
      split; [|by symmetry].
      rewrite lookup_delete_ne by done. apply lookup_insert_eq. }
    apply scan_finds_user in Hex. congruence.
  - apply lookup_delete_eq.
  - rewrite lookup_delete_ne by done. apply lookup_insert_eq.
Qed.

(** *** More on the teardown closure *)

(** X12. The closure has no memory of having run.  A second run finds the
    table as the first left it and leaves it so, and makes the same calls as
    the first: if the first run called [DeleteAllEvents], the second calls it
    again. *)
Theorem onClose_twice (session : Session) (w : World) :
  let w1 := exec (onClose session) w in
  sessions (exec (onClose session) w1) = sessions w1
  /\ emitted (onClose session) w1 = emitted (onClose session) w.
Proof.
  intros w1. subst w1.
  rewrite !onClose_emitted, !onClose_sessions, !delete_delete_eq. done.
Qed.

(** X13. Tearing down a session that is not in the table.  When no entry
    is stored under the session's ID, the closure leaves the table as it is,
    and still calls [DeleteAllEvents] for the session's user unless the table
    holds a session of that user. *)
Theorem onClose_absent_session (session : Session) (w : World) :
  let has := exists k s, sessions w !! k = Some s /\ UserID s = UserID session in
  sessions w !! ID session = None ->
  sessions (exec (onClose session) w) = sessions w
  /\ (has -> DeleteAllEventsCalls (emitted (onClose session) w) = [])
  /\ (~ has -> DeleteAllEventsCalls (emitted (onClose session) w)
               = [UserID session]).
Proof.
  intros has Habsent. subst has.
  rewrite onClose_sessions, onClose_emitted, delete_id by done.
  split; [reflexivity|].
  pose proof (scan_finds_user (UserID session) (sessions w)) as Hscan.
  destruct (existsb _ _).
  - split; [reflexivity|]. intros Hno. destruct Hno. by apply Hscan.
  - split; [|reflexivity]. intros Hhas. apply Hscan in Hhas. discriminate.
Qed.

(** X14. The last of two.  A user has exactly two sessions in the table,
    under different IDs.  Tearing them down one after the other calls
    [DeleteAllEvents] once, in the second run, and removes both entries. *)
Theorem onClose_last_of_two (s1 s2 : Session) (w : World) :
  let w1 := exec (onClose s1) w in
  sessions w !! ID s1 = Some s1 ->
  sessions w !! ID s2 = Some s2 ->
  ID s1 <> ID s2 ->
  UserID s1 = UserID s2 ->
  (forall k s, sessions w !! k = Some s -> UserID s = UserID s1 ->
               k = ID s1 \/ k = ID s2) ->
  DeleteAllEventsCalls (emitted (onClose s1) w) = []
  /\ DeleteAllEventsCalls (emitted (onClose s2) w1) = [UserID s1]
  /\ sessions (exec (onClose s2) w1) = delete (ID s2) (delete (ID s1) (sessions w)).
Proof.
  intros w1 H1 H2 Hne Huser Honly. subst w1.
  rewrite !onClose_emitted, !onClose_sessions. split; [|split; [|reflexivity]].
  - match goal with |- context [existsb ?f ?l] => destruct (existsb f l) eqn:E end;
      [reflexivity|].
    assert (Hex : exists k s, delete (ID s1) (sessions w) !! k = Some s
                              /\ UserID s = UserID s1).
    { exists (ID s2), s2. split; [|done]. by rewrite lookup_delete_ne. }
    apply scan_finds_user in Hex. congruence.
  - match goal with |- context [existsb ?f ?l] => destruct (existsb f l) eqn:E end;
      [|by rewrite Huser].
    apply scan_finds_user in E as (k & s & Hk & Hu).
    apply lookup_delete_Some in Hk as [Hk2 Hk].
    apply lookup_delete_Some in Hk as [Hk1 Hk].
    rewrite <- Huser in Hu. destruct (Honly k s Hk Hu); congruence.
Qed.

(** X15. Sessions of other users do not count.  Storing a session of
    another user under a free key does not change what the closure of
    [session] does: it makes the same calls. *)
Theorem onClose_other_users_irrelevant
    (session other : Session) (k : string) (w : World) :
  UserID other <> UserID session ->
  sessions w !! k = None ->
  emitted (onClose session)
          {| sessions := <[k := other]> (sessions w); calls := calls w |}
  = emitted (onClose session) w.
Proof.
  intros Huser Hfree. rewrite !onClose_emitted. cbn [sessions]. f_equal.
  match goal with
  | |- (if ?b1 then _ else _) = (if ?b2 then _ else _) =>
      replace b1 with b2; [reflexivity|]
  end.
  apply Bool.eq_true_iff_eq. rewrite !scan_finds_user. split.
  - intros (k' & s & Hk & Hu). exists k', s. split; [|done].
    apply lookup_delete_Some in Hk as [Hne Hk].
    apply lookup_delete_Some. split; [done|].
    rewrite lookup_insert_ne; [done|]. congruence.
  - intros (k' & s & Hk & Hu). exists k', s. split; [|done].
    apply lookup_delete_Some in Hk as [Hne Hk].
    apply lookup_delete_Some. split; [done|].
    apply lookup_insert_Some in Hk as [[_ <-]|[_ Hk]]; [congruence | done].
Qed.

(** X16. The table stays keyed by session ID.  The empty table is, and
    every handler and the teardown closure keep it so: a session is only
    ever found under its own ID. *)
Theorem keyedByID_invariant :
  keyedByID (∅ : gmap string Session)
  /\ (forall w : World,
        keyedByID (sessions w) ->
        (forall newID newToken ctx req,
            keyedByID (sessions (exec (Auth newID newToken ctx req) w)))
        /\ (forall ctx req, keyedByID (sessions (exec (AuthInfo ctx req) w)))
        /\ (forall ctx req, keyedByID (sessions (exec (AuthCookies ctx req) w)))
        /\ (forall ctx, keyedByID (sessions (exec (DeleteAuth ctx) w)))
        /\ (forall session, keyedByID (sessions (exec (onClose session) w)))).
Proof.
  split; [intros k s Hk; by rewrite lookup_empty in Hk|].
  intros w Hw. repeat split.
  - intros. by apply Auth_keyedByID.
  - intros. exact Hw.
  - intros. by rewrite AuthCookies_sessions.
  - intros. by apply DeleteAuth_keyedByID.
  - intros. by apply onClose_keyedByID.
Qed.

(** *** More on [DeleteAuth] *)

(** X17. Revoking twice is revoking once: a second run of the same request
    leaves the table as the first left it and makes the same calls (cookie
    cleared again, [Ok] again). *)
Theorem DeleteAuth_idempotent (ctx : Context) (w : World) :
  let w1 := exec (DeleteAuth ctx) w in
  sessions (exec (DeleteAuth ctx) w1) = sessions w1
  /\ emitted (DeleteAuth ctx) w1 = emitted (DeleteAuth ctx) w.
Proof.
  intros w1. subst w1. rewrite !DeleteAuth_emitted, !DeleteAuth_sessions.
  split; [|reflexivity].
  destruct (String.eqb _ _); [reflexivity|]. by rewrite delete_delete_eq.
Qed.

(** X18. Revocation without a token.  When the request resolves to no
    session token, [DeleteAuth] sets no cookie and does not touch the table;
    its one call is the [Ok] response. *)
Theorem DeleteAuth_without_token (ctx : Context) (w : World) :
  getSessionToken ctx = "" ->
  sessions (exec (DeleteAuth ctx) w) = sessions w
  /\ emitted (DeleteAuth ctx) w = [JSON 200 (RespBody {| ResponseCode := Ok |})].
Proof.
  intros Htok. by rewrite DeleteAuth_sessions, DeleteAuth_emitted, Htok.
Qed.

(** *** More on [AuthCookies] *)

(** X19. What [AuthCookies] reads of a request.  Its calls depend on the
    identifier and on the first value of the [Authorization] header only:
    further values of the header and the whole request body are ignored. *)
Theorem AuthCookies_reads_first_header_value
    (ctx ctx' : Context) (req req' : AuthCookiesReq) (w : World)
    (h : string) (more : list string) :
  getUid ctx' = getUid ctx ->
  Header ctx !! "Authorization" = Some (h :: more) ->
  Header ctx' !! "Authorization" = Some [h] ->
  emitted (AuthCookies ctx req) w = emitted (AuthCookies ctx' req') w.
Proof.
  intros Huid Hh Hh'. by rewrite !AuthCookies_emitted, Huid, Hh, Hh'.
Qed.

(** X20. The outcomes of a cookie promotion.  A request is rejected with
    one of the three error kinds, and then sets no cookie, or it succeeds
    for the session stored under its identifier.  A cookie is never set
    along with an error. *)
Theorem AuthCookies_outcomes (ctx : Context) (req : AuthCookiesReq) (w : World) :
  let out := emitted (AuthCookies ctx req) w in
  (cookies out = []
   /\ (out = rejected "invalid_grant" "No uid provided"
       \/ out = rejected "invalid_session" "Invalid UID"
       \/ out = rejected "invalid_authorization" "Invalid authorization header"))
  \/ (exists session,
        sessions w !! getUid ctx = Some session /\ out = promoted session).
Proof.
  intros out. subst out. rewrite AuthCookies_emitted.
  destruct (String.eqb _ _); [left; split; [reflexivity | auto]|].
  destruct (sessions w !! getUid ctx) as [session|];
    [|left; split; [reflexivity | auto]].
  cbn zeta.
  destruct (Header ctx !! "Authorization") as [[|auth0 ?]|];
    try (left; split; [reflexivity | auto]).
  destruct (GoStrings.SplitN auth0 " " 2) as [|? [|? [|? ?]]];
    try (left; split; [reflexivity | auto]).
  destruct (_ && _); [right; eauto | left; split; [reflexivity | auto]].
Qed.

(** *** Splitting and joining *)

Lemma length_substring (s : string) : forall m k : nat,
  String.length (String.substring m k s) = Nat.min k (String.length s - m).
Proof.
  induction s as [|c s IH]; intros [|m] [|k]; cbn; try reflexivity.
  - by rewrite IH, Nat.sub_0_r.
  - apply IH.
  - apply IH.
Qed.

Lemma substring_split2 (s : string) : forall k : nat,
  (k <= String.length s)%nat ->
  s = String.substring 0 k s +:+ String.substring k (String.length s - k) s.
Proof.
  induction s as [|c s IH]; intros [|k] Hk; cbn in *.
  - reflexivity.
  - lia.
  - rewrite append_empty. by rewrite substring_whole.
  - rewrite append_String. f_equal. apply IH. lia.
Qed.

Lemma substring_split3 (s : string) : forall m k : nat,
  (m + k <= String.length s)%nat ->
  s = String.substring 0 m s
      +:+ String.substring m k s
      +:+ String.substring (m + k) (String.length s - (m + k)) s.
Proof.
  induction s as [|c s IH]; intros [|m] k Hk.
  - cbn in *. destruct k; [reflexivity | lia].
  - cbn in Hk. lia.
  - change (String.substring 0 0 (String c s)) with "". rewrite append_empty.
    apply substring_split2. cbn [Nat.add] in Hk. exact Hk.
  - cbn in Hk |- *. rewrite append_String. f_equal. apply IH. lia.
Qed.

Lemma index_in_bounds (sep s : string) : forall m : nat,
  String.index 0 sep s = Some m -> (m <= String.length s)%nat.
Proof.
  induction s as [|c s IH]; intros m Hidx.
  - cbn in Hidx. destruct sep; [|discriminate]. injection Hidx as <-. cbn. lia.
  - cbn -[String.prefix] in Hidx. destruct (String.prefix sep (String c s)).
    + injection Hidx as <-. lia.
    + destruct (String.index 0 sep s) as [n|] eqn:E; [|discriminate].
      injection Hidx as <-. specialize (IH n eq_refl). cbn. lia.
Qed.

(** A string is what lies before the first occurrence of [sep], then [sep],
    then what lies after it. *)
Lemma index_cut (sep s : string) (m : nat) :
  String.index 0 sep s = Some m ->
  s = String.substring 0 m s +:+ sep
      +:+ String.substring (m + String.length sep)
                           (String.length s - (m + String.length sep)) s.
Proof.
  intros Hidx.
  pose proof (String.index_correct1 _ _ _ _ Hidx) as Hsub.
  pose proof (index_in_bounds _ _ _ Hidx) as Hm.
  assert (Hle : (m + String.length sep <= String.length s)%nat).
  { pose proof (length_substring s m (String.length sep)) as Hlen.
    rewrite Hsub in Hlen. lia. }
  pose proof (substring_split3 s m (String.length sep) Hle) as Hcut.
  by rewrite Hsub in Hcut.
Qed.

Lemma cutLoop_nonempty (cuts : nat) (s sep : string) :
  GoStrings.cutLoop cuts s sep <> [].
Proof. destruct cuts; cbn; [done|]. by destruct (String.index 0 sep s). Qed.

Lemma Join_cons (a : string) (rest : list string) (sep : string) :
  rest <> [] ->
  GoStrings.Join (a :: rest) sep = a +:+ sep +:+ GoStrings.Join rest sep.
Proof. by destruct rest. Qed.

Lemma Join_cutLoop (sep : string) (cuts : nat) : forall s,
  GoStrings.Join (GoStrings.cutLoop cuts s sep) sep = s.
Proof.
  induction cuts as [|cuts IH]; intros s; cbn [GoStrings.cutLoop]; [reflexivity|].
  destruct (String.index 0 sep s) as [m|] eqn:Hidx; [|reflexivity].
  cbn zeta. rewrite Join_cons by apply cutLoop_nonempty.
  rewrite IH. symmetry. by apply index_cut.
Qed.

Lemma length_cutLoop (sep : string) (cuts : nat) : forall s,
  (1 <= length (GoStrings.cutLoop cuts s sep) <= S cuts)%nat.
Proof.
  induction cuts as [|cuts IH]; intros s; cbn [GoStrings.cutLoop]; [cbn; lia|].
  destruct (String.index 0 sep s) as [m|]; [|cbn; lia].
  cbn zeta. cbn [length].
  specialize (IH (String.substring (m + String.length sep)
                    (String.length s - (m + String.length sep)) s)). lia.
Qed.

Lemma SplitN_Join_sep (s sep : string) (n : Z) :
  n <> 0 -> sep <> "" -> GoStrings.Join (GoStrings.SplitN s sep n) sep = s.
Proof.
  intros Hn Hsep. unfold GoStrings.SplitN.
  apply Z.eqb_neq in Hn. rewrite Hn.
  apply String.eqb_neq in Hsep. rewrite Hsep. apply Join_cutLoop.
Qed.

(** X21. Splitting loses nothing.  For a non-empty separator and a limit
    other than 0, joining the parts of [SplitN(s, sep, n)] with [sep] gives
    [s] back; there is at least one part, and at most [n] parts for a
    positive [n]. *)
Theorem SplitN_Join (s sep : string) (n : Z) :
  n <> 0 -> sep <> "" ->
  GoStrings.Join (GoStrings.SplitN s sep n) sep = s
  /\ (1 <= length (GoStrings.SplitN s sep n))%nat
  /\ (0 < n -> Z.of_nat (length (GoStrings.SplitN s sep n)) <= n).
Proof.
  intros Hn Hsep. split; [by apply SplitN_Join_sep|].
  unfold GoStrings.SplitN.
  apply Z.eqb_neq in Hn. rewrite Hn.
  apply String.eqb_neq in Hsep. rewrite Hsep. cbn zeta.
  split; [apply length_cutLoop|].
  intros Hpos.
  match goal with |- context [GoStrings.cutLoop ?c s sep] =>
    pose proof (length_cutLoop sep c s) as [_ Hle]; revert Hle end.
  destruct (Z.ltb_spec n 0); [lia|].
  destruct (Z.gtb_spec n (Z.of_nat (String.length s) + 1)); lia.
Qed.

(** X22. When a cookie promotion succeeds.  A request succeeds exactly
    when it carries a non-empty identifier under which the table holds a
    session and the first value of its [Authorization] header is the string
    [Bearer], one space, and that session's token; every other request is
    rejected. *)
Theorem AuthCookies_succeeds_iff
    (ctx : Context) (req : AuthCookiesReq) (w : World) :
  (exists session, emitted (AuthCookies ctx req) w = promoted session)
  <-> (getUid ctx <> ""
       /\ exists session more,
            sessions w !! getUid ctx = Some session
            /\ Header ctx !! "Authorization"
               = Some (("Bearer " +:+ Token session) :: more)).
Proof.
  rewrite AuthCookies_emitted. split.
  - intros [session' Hout].
    destruct (String.eqb_spec (getUid ctx) "") as [|Hne]; [discriminate|].
    split; [exact Hne|].
    destruct (sessions w !! getUid ctx) as [session|]; [|discriminate].
    cbn zeta in Hout.
    destruct (Header ctx !! "Authorization") as [[|auth0 more]|];
      try discriminate.
    pose proof (SplitN_Join_sep auth0 " " 2) as Hjoin.
    destruct (GoStrings.SplitN auth0 " " 2) as [|tokenType [|token [|? ?]]];
      try discriminate.
    destruct (String.eqb_spec tokenType TokenBearer) as [->|]; [|discriminate].
    destruct (String.eqb token (Token session)) eqn:Etoken; [|discriminate].
    apply String.eqb_eq in Etoken. subst token.
    exists session, more. split; [reflexivity|].
    rewrite <- Hjoin by done. reflexivity.
  - intros (Hne & session & more & -> & ->).
    rewrite (eqb_nonempty _ Hne). cbn zeta. rewrite SplitN_Bearer.
    change (String.eqb "Bearer" TokenBearer) with true.
    rewrite String.eqb_refl. eauto.
Qed.

(** The sample tables are keyed by session ID. *)
Lemma keyedByID_worldOf (ss : list Session) : keyedByID (sessions (worldOf ss)).
Proof.
  unfold worldOf. cbn [sessions].
  induction ss as [|s ss IH]; intros k s' Hk.
  - rewrite fmap_nil, list_to_map_nil, lookup_empty in Hk. discriminate.
  - rewrite fmap_cons, list_to_map_cons in Hk.
    apply lookup_insert_Some in Hk as [[<- <-]|[_ Hk]]; [done|].
    by apply IH.
Qed.

End Handlers.

(** *** The handlers on the sample data *)

(** C1. Revocation leaves the revoked session in the table.  The table
    holds the session [s1] with token [t1]; the request resolves to the
    session token [t1].  [DeleteAuth] answers [Ok] and clears the cookie, yet
    the session is still stored under its ID afterwards, and still after a
    second revocation: the key it deletes is the string ["sessionToken"],
    not the token of the request. *)
Theorem DeleteAuth_keeps_the_session :
  let w := worldOf [sampleSession] in
  let ctx := bearerRequest "s1" "t1" in
  let w1 := exec (DeleteAuth sampleOk ctx) w in
  let w2 := exec (DeleteAuth sampleOk ctx) w1 in
  getSessionToken ctx = Token sampleSession
  /\ sessions w !! "s1" = Some sampleSession
  /\ responses (emitted (DeleteAuth sampleOk ctx) w)
     = [(200, RespBody {| ResponseCode := sampleOk |})]
  /\ sessions w1 !! "s1" = Some sampleSession
  /\ sessions w2 !! "s1" = Some sampleSession.
Proof. vm_compute. repeat split; reflexivity. Qed.


(** C7 fails on the code: a header with three space-separated tokens is
    not rejected.  The session [s3] has the token ["a b"]; the header
    [Bearer a b] holds three tokens, the handler cuts it into [Bearer] and
    [a b], and the request succeeds. *)
Lemma AuthCookies_accepts_three_tokens :
  let w := worldOf [spacedSession] in
  let ctx := bearerRequest "s3" "a b" in
  let out := emitted (AuthCookies sampleOk sampleBadRequest sampleMarshal
                                  ctx emptyAuthCookiesReq) w in
  sessions w !! "s3" = Some spacedSession
  /\ Header ctx !! "Authorization" = Some ["Bearer a b"]
  /\ GoStrings.Split "Bearer a b" " " = ["Bearer"; "a"; "b"]
  /\ out <> rejected sampleBadRequest "invalid_authorization"
                     "Invalid authorization header"
  /\ out = [ SetCookie "AUTH-a b" "{AccessToken:a b,UID:s3}"
                       0 "/api/" "" false true;
             JSON 200 (AuthCookiesBody
               {| AuthCookiesResp_Resp := {| ResponseCode := sampleOk |};
                  SessionToken := "a b" |}) ].
Proof.
  vm_compute. repeat split; try reflexivity. discriminate.
Qed.

(** Two sessions of [alice]: closing the first keeps her events; closing the
    only session of a table stops them. *)
Lemma onClose_stops_events_witness :
  ("s2" <> ID sampleSession
   /\ sessions (worldOf [sampleSession; sampleSession2]) !! "s2"
      = Some sampleSession2
   /\ UserID sampleSession2 = UserID sampleSession)
  /\ DeleteAllEventsCalls
       (emitted (onClose sampleSession) (worldOf [sampleSession; sampleSession2]))
     = []
  /\ DeleteAllEventsCalls (emitted (onClose sampleSession) (worldOf [sampleSession]))
     = ["alice"].
Proof.
  split; [|split].
  - split; [discriminate | split; reflexivity].
  - apply (proj1 (proj2 (proj2 (proj2 (onClose_stops_events_for_last_session
             sampleSession (worldOf [sampleSession; sampleSession2])))))
             "s2" sampleSession2); [discriminate | reflexivity | reflexivity].
  - apply (proj1 (proj2 (onClose_stops_events_for_last_session
             sampleSession (worldOf [sampleSession])))).
    intros (k & s & Hk & _). vm_compute in Hk. discriminate.
Defined.

(** [bob] logs in and has no key. *)
Lemma Auth_no_private_key_witness :
  let run := @Auth sampleBackend sampleOk sampleUnauthorized
               sampleInternalServerError samplePopulate 500 "unknown_error"
               "s9" "t9" (headerRequest "" "") (loginOf "bob") in
  let session := {| ID := "s9"; UserID := "bob"; Token := "t9" |} in
  (exists e, emitted run (worldOf [sampleSession]) = [JSON 200 (ErrorBody e)]
             /\ ErrorDescription e = "User has no private key")
  /\ sessions (exec run (worldOf [sampleSession])) !! "s9" = Some session
  /\ sessions (exec run (worldOf [sampleSession]))
     = <["s9" := session]> (sessions (worldOf [sampleSession])).
Proof.
  apply (@Auth_no_private_key sampleBackend sampleOk sampleUnauthorized
           sampleInternalServerError samplePopulate 500 "unknown_error"
           "s9" "t9" (headerRequest "" "") (loginOf "bob")
           (worldOf [sampleSession]) "bob" "bob"); reflexivity.
Defined.

(** An unknown user is turned away. *)
Lemma Auth_rejected_credentials_witness :
  let run := @Auth sampleBackend sampleOk sampleUnauthorized
               sampleInternalServerError samplePopulate 500 "unknown_error"
               "s9" "t9" (headerRequest "" "") (loginOf "mallory") in
  emitted run (worldOf [sampleSession])
  = [JSON 200 (ErrorBody
       {| ErrorResp_Resp := {| ResponseCode := sampleUnauthorized |};
          Error := "invalid_grant";
          ErrorDescription := "Invalid username or password" |})]
  /\ sessions (exec run (worldOf [sampleSession]))
     = sessions (worldOf [sampleSession]).
Proof.
  apply (@Auth_rejected_credentials sampleBackend sampleOk sampleUnauthorized
           sampleInternalServerError samplePopulate 500 "unknown_error"
           "s9" "t9" (headerRequest "" "") (loginOf "mallory")
           (worldOf [sampleSession]) "Invalid username or password").
  reflexivity.
Defined.

(** The session [s1] presents its own token. *)
Lemma AuthCookies_round_trip_witness :
  emitted (AuthCookies sampleOk sampleBadRequest sampleMarshal
                       (bearerRequest "s1" "t1") emptyAuthCookiesReq)
          (worldOf [sampleSession])
  = [ SetCookie "AUTH-t1" (sampleMarshal {| AccessToken := "t1"; Uid := "s1" |})
                0 "/api/" "" false true;
      JSON 200 (AuthCookiesBody
        {| AuthCookiesResp_Resp := {| ResponseCode := sampleOk |};
           SessionToken := "t1" |}) ].
Proof.
  apply (AuthCookies_round_trip sampleOk sampleBadRequest sampleMarshal
           (bearerRequest "s1" "t1") emptyAuthCookiesReq
           (worldOf [sampleSession]) sampleSession []);
    [reflexivity | reflexivity | discriminate | reflexivity].
Defined.

(** The scheme [Basic] is rejected although the token is the right one. *)
Lemma AuthCookies_rejections_witness :
  emitted (AuthCookies sampleOk sampleBadRequest sampleMarshal
                       (headerRequest "s1" "Basic t1") emptyAuthCookiesReq)
          (worldOf [sampleSession])
  = rejected sampleBadRequest "invalid_authorization"
             "Invalid authorization header".
Proof.
  refine (proj2 (proj2 (proj2 (proj2 (proj2
    (AuthCookies_rejections sampleOk sampleBadRequest sampleMarshal
       (headerRequest "s1" "Basic t1") emptyAuthCookiesReq
       (worldOf [sampleSession])))
    sampleSession _ _)) "Basic t1" [] _) "Basic" "t1" _ _ _).
  - discriminate.
  - reflexivity.
  - reflexivity.
  - reflexivity.
  - reflexivity.
  - left. discriminate.
Defined.

(** The cookie of [s1] agrees with the table. *)
Lemma AuthCookies_reads_only_witness :
  exists session,
    sessions (exec (AuthCookies sampleOk sampleBadRequest sampleMarshal
                                (bearerRequest "s1" "t1") emptyAuthCookiesReq)
                   (worldOf [sampleSession])) !! "s1" = Some session
    /\ "AUTH-t1" = "AUTH-" +:+ Token session
    /\ "{AccessToken:t1,UID:s1}"
       = sampleMarshal {| AccessToken := Token session; Uid := ID session |}.
Proof.
  apply (proj2 (AuthCookies_reads_only sampleOk sampleBadRequest sampleMarshal
                  (bearerRequest "s1" "t1") emptyAuthCookiesReq
                  (worldOf [sampleSession]))
               "AUTH-t1" "{AccessToken:t1,UID:s1}").
  vm_compute. left. reflexivity.
Defined.

(** The token ["a b"] is accepted through [Bearer a b]. *)
Lemma AuthCookies_splits_at_first_space_witness :
  emitted (AuthCookies sampleOk sampleBadRequest sampleMarshal
                       (bearerRequest "s3" "a b") emptyAuthCookiesReq)
          (worldOf [spacedSession])
  = promoted sampleOk sampleMarshal spacedSession.
Proof.
  apply (proj1 (proj2 (AuthCookies_splits_at_first_space
                         sampleOk sampleBadRequest sampleMarshal)
                 (bearerRequest "s3" "a b") emptyAuthCookiesReq
                 (worldOf [spacedSession]) spacedSession "a b" []
                 ltac:(discriminate) eq_refl eq_refl)).
  reflexivity.
Defined.

(** *** More runs on the sample data *)

(** [alice] logs in on the brittle backend. *)
Lemma Auth_success_witness :
  let run := @Auth brittleBackend sampleOk sampleUnauthorized
               sampleInternalServerError samplePopulate 500 "unknown_error"
               "s9" "t9" (headerRequest "" "") (loginOf "alice") in
  emitted run (worldOf [sampleSession])
  = [JSON 200 (AuthBody
       {| AuthResp_Resp := {| ResponseCode := sampleOk |};
          AuthResp_AccessToken := "enc:t9";
          ExpiresIn := 360000;
          AuthResp_TokenType := "Bearer";
          Scope := "full mail payments reset keys";
          AuthResp_Uid := "s9";
          AuthResp_RefreshToken := "refresh_token";
          UserStatus := 0;
          AuthResp_PrivateKey := "alice-key";
          KeySalt := "";
          EventID := "event-7" |})]
  /\ sessions (exec run (worldOf [sampleSession])) !! "s9"
     = Some {| ID := "s9"; UserID := "alice"; Token := "t9" |}.
Proof.
  apply (@Auth_success brittleBackend sampleOk sampleUnauthorized
           sampleInternalServerError samplePopulate 500 "unknown_error"
           "s9" "t9" (headerRequest "" "") (loginOf "alice")
           (worldOf [sampleSession]) "alice" "alice"
           {| backend.PrivateKey := "alice-key" |}
           [ {| backend.PrivateKey := "alice-old-key" |} ]
           "enc:t9" {| backend.ID := "event-7" |}); reflexivity.
Defined.

(** The key of [carol] cannot encrypt. *)
Lemma Auth_invalid_key_witness :
  let run := @Auth brittleBackend sampleOk sampleUnauthorized
               sampleInternalServerError samplePopulate 500 "unknown_error"
               "s9" "t9" (headerRequest "" "") (loginOf "carol") in
  emitted run (worldOf [])
  = [JSON 200 (ErrorBody
       {| ErrorResp_Resp := {| ResponseCode := sampleInternalServerError |};
          Error := "invalid_key";
          ErrorDescription := "cannot encrypt" |})]
  /\ sessions (exec run (worldOf [])) !! "s9"
     = Some {| ID := "s9"; UserID := "carol"; Token := "t9" |}.
Proof.
  apply (@Auth_invalid_key_keeps_session brittleBackend sampleOk
           sampleUnauthorized sampleInternalServerError samplePopulate
           500 "unknown_error" "s9" "t9" (headerRequest "" "") (loginOf "carol")
           (worldOf []) "carol" "carol"
           {| backend.PrivateKey := "carol-key" |}
           [ {| backend.PrivateKey := "carol-old-key" |} ]
           "cannot encrypt"); reflexivity.
Defined.

(** The last event of [dave] cannot be read. *)
Lemma Auth_last_event_failure_witness :
  let run := @Auth brittleBackend sampleOk sampleUnauthorized
               sampleInternalServerError samplePopulate 500 "unknown_error"
               "s9" "t9" (headerRequest "" "") (loginOf "dave") in
  emitted run (worldOf [])
  = [JSON 500 (ErrorBody
       {| ErrorResp_Resp := {| ResponseCode := 500 |};
          Error := "unknown_error";
          ErrorDescription := "no event" |})]
  /\ sessions (exec run (worldOf [])) !! "s9"
     = Some {| ID := "s9"; UserID := "dave"; Token := "t9" |}.
Proof.
  apply (@Auth_last_event_failure_keeps_session brittleBackend sampleOk
           sampleUnauthorized sampleInternalServerError samplePopulate
           500 "unknown_error" "s9" "t9" (headerRequest "" "") (loginOf "dave")
           (worldOf []) "dave" "dave"
           {| backend.PrivateKey := "dave-key" |}
           [ {| backend.PrivateKey := "dave-old-key" |} ]
           "enc:t9" "no event"); reflexivity.
Defined.

(** [alice] cannot be populated. *)
Lemma Auth_populate_failure_witness :
  let run := @Auth sampleBackend sampleOk sampleUnauthorized
               sampleInternalServerError failingPopulate 500 "unknown_error"
               "s9" "t9" (headerRequest "" "") (loginOf "alice") in
  emitted run (worldOf [sampleSession])
  = [JSON 200 (ErrorBody
       {| ErrorResp_Resp := {| ResponseCode := 500 |};
          Error := "unknown_error";
          ErrorDescription := "cannot populate" |})]
  /\ sessions (exec run (worldOf [sampleSession]))
     = sessions (worldOf [sampleSession]).
Proof.
  apply (@Auth_populate_failure sampleBackend sampleOk sampleUnauthorized
           sampleInternalServerError failingPopulate 500 "unknown_error"
           "s9" "t9" (headerRequest "" "") (loginOf "alice")
           (worldOf [sampleSession]) "alice" "cannot populate"); reflexivity.
Defined.

(** A login under the ID [s9] leaves [s1] alone. *)
Lemma Auth_other_keys_witness :
  sessions (exec (@Auth sampleBackend sampleOk sampleUnauthorized
                    sampleInternalServerError samplePopulate 500 "unknown_error"
                    "s9" "t9" (headerRequest "" "") (loginOf "alice"))
                 (worldOf [sampleSession])) !! "s1"
  = sessions (worldOf [sampleSession]) !! "s1".
Proof.
  apply (@Auth_other_keys sampleBackend sampleOk sampleUnauthorized
           sampleInternalServerError samplePopulate 500 "unknown_error"
           "s9" "t9" (headerRequest "" "") (loginOf "alice")
           (worldOf [sampleSession]) "s1").
  discriminate.
Defined.

(** [bob] logs in and draws the ID of the session of [alice]. *)
Lemma Auth_overwrites_witness :
  let run := @Auth sampleBackend sampleOk sampleUnauthorized
               sampleInternalServerError samplePopulate 500 "unknown_error"
               "s1" "t9" (headerRequest "" "") (loginOf "bob") in
  sessions (exec run (worldOf [sampleSession])) !! "s1"
  = Some {| ID := "s1"; UserID := "bob"; Token := "t9" |}
  /\ (forall k, sessions (exec run (worldOf [sampleSession])) !! k
                <> Some sampleSession)
  /\ onCloseRuns (emitted run (worldOf [sampleSession])) = []
  /\ DeleteAllEventsCalls (emitted run (worldOf [sampleSession])) = [].
Proof.
  apply (@Auth_overwrites_without_teardown sampleBackend sampleOk
           sampleUnauthorized sampleInternalServerError samplePopulate
           500 "unknown_error" "s1" "t9" (headerRequest "" "") (loginOf "bob")
           (worldOf [sampleSession]) "bob" "bob" sampleSession).
  - apply keyedByID_worldOf.
  - reflexivity.
  - discriminate.
  - reflexivity.
  - reflexivity.
Defined.

(** The login of [dave] is the one answered with 500. *)
Lemma response_statuses_witness :
  (fst <$> responses (emitted
     (@Auth brittleBackend sampleOk sampleUnauthorized sampleInternalServerError
        samplePopulate 500 "unknown_error" "s9" "t9"
        (headerRequest "" "") (loginOf "dave")) (worldOf []))) = [500]
  /\ (fst <$> responses (emitted
     (@Auth sampleBackend sampleOk sampleUnauthorized sampleInternalServerError
        samplePopulate 500 "unknown_error" "s9" "t9"
        (headerRequest "" "") (loginOf "mallory")) (worldOf []))) = [200].
Proof.
  split.
  - pose proof (@response_statuses brittleBackend sampleOk sampleBadRequest
         sampleUnauthorized sampleInternalServerError samplePopulate
         sampleMarshal 500 "unknown_error" (worldOf []) (headerRequest "" ""))
      as (_ & _ & _ & HAuth).
    destruct (HAuth "s9" "t9" (loginOf "dave")) as [H500 _]. apply H500.
    exists "dave", "dave", {| backend.PrivateKey := "dave-key" |},
      [ {| backend.PrivateKey := "dave-old-key" |} ], "enc:t9", "no event".
    repeat split; reflexivity.
  - pose proof (@response_statuses sampleBackend sampleOk sampleBadRequest
         sampleUnauthorized sampleInternalServerError samplePopulate
         sampleMarshal 500 "unknown_error" (worldOf []) (headerRequest "" ""))
      as (_ & _ & _ & HAuth).
    destruct (HAuth "s9" "t9" (loginOf "mallory")) as [_ H200]. apply H200.
    intros (? & ? & ? & ? & ? & ? & Hauth & _). discriminate.
Defined.

(** [bob] has no key, yet the session of his failed login can be promoted. *)
Lemma login_then_promote_witness :
  emitted (AuthCookies sampleOk sampleBadRequest sampleMarshal
             (bearerRequest "s9" "t9") emptyAuthCookiesReq)
          (exec (@Auth sampleBackend sampleOk sampleUnauthorized
                   sampleInternalServerError samplePopulate 500 "unknown_error"
                   "s9" "t9" (headerRequest "" "") (loginOf "bob"))
                (worldOf []))
  = promoted sampleOk sampleMarshal
             {| ID := "s9"; UserID := "bob"; Token := "t9" |}.
Proof.
  apply (@login_then_promote sampleBackend sampleOk sampleBadRequest
           sampleUnauthorized sampleInternalServerError samplePopulate
           sampleMarshal 500 "unknown_error" "s9" "t9" (headerRequest "" "")
           (loginOf "bob") (worldOf []) "bob" "bob"
           (bearerRequest "s9" "t9") emptyAuthCookiesReq []);
    [reflexivity | reflexivity | discriminate | reflexivity | reflexivity].
Defined.

(** [alice] logs in a second time and the new session is closed again. *)
Lemma login_then_close_witness :
  let w1 := exec (@Auth sampleBackend sampleOk sampleUnauthorized
                    sampleInternalServerError samplePopulate 500 "unknown_error"
                    "s9" "t9" (headerRequest "" "") (loginOf "alice"))
                 (worldOf [sampleSession]) in
  let session := {| ID := "s9"; UserID := "alice"; Token := "t9" |} in
  sessions (exec (onClose session) w1) = sessions (worldOf [sampleSession])
  /\ DeleteAllEventsCalls (emitted (onClose session) w1) = [].
Proof.
  pose proof (@login_then_close sampleBackend sampleOk sampleUnauthorized
           sampleInternalServerError samplePopulate 500 "unknown_error"
           "s9" "t9" (headerRequest "" "") (loginOf "alice")
           (worldOf [sampleSession]) "alice" "alice"
           eq_refl eq_refl eq_refl) as (Htable & Hhad & _).
  split; [exact Htable|].
  apply Hhad. exists "s1", sampleSession. split; reflexivity.
Defined.

(** [alice] logs in twice; closing the first session keeps her events. *)
Lemma second_login_keeps_events_witness :
  let login id token :=
    @Auth sampleBackend sampleOk sampleUnauthorized sampleInternalServerError
      samplePopulate 500 "unknown_error" id token
      (headerRequest "" "") (loginOf "alice") in
  let w2 := exec (login "s9" "t9") (exec (login "s8" "t8") (worldOf [])) in
  let s8 := {| ID := "s8"; UserID := "alice"; Token := "t8" |} in
  DeleteAllEventsCalls (emitted (onClose s8) w2) = []
  /\ sessions (exec (onClose s8) w2) !! "s8" = None
  /\ sessions (exec (onClose s8) w2) !! "s9"
     = Some {| ID := "s9"; UserID := "alice"; Token := "t9" |}.
Proof.
  apply (@second_login_keeps_events sampleBackend sampleOk sampleUnauthorized
           sampleInternalServerError samplePopulate 500 "unknown_error"
           "s8" "t8" "s9" "t9" (headerRequest "" "") (headerRequest "" "")
           (loginOf "alice") (loginOf "alice") (worldOf [])
           "alice" "alice" "alice" "alice");
    [reflexivity | reflexivity | reflexivity | reflexivity | reflexivity
    | discriminate].
Defined.

(** The session [s1] is closed while only [s2] is in the table. *)
Lemma onClose_absent_session_witness :
  sessions (exec (onClose sampleSession) (worldOf [sampleSession2]))
  = sessions (worldOf [sampleSession2])
  /\ DeleteAllEventsCalls (emitted (onClose sampleSession) (worldOf [sampleSession2]))
     = [].
Proof.
  pose proof (onClose_absent_session sampleSession (worldOf [sampleSession2])
                eq_refl) as (Htable & Hhas & _).
  split; [exact Htable|].
  apply Hhas. exists "s2", sampleSession2. split; reflexivity.
Defined.

(** The two sessions of [alice] are closed one after the other. *)
Lemma onClose_last_of_two_witness :
  let w := worldOf [sampleSession; sampleSession2] in
  DeleteAllEventsCalls (emitted (onClose sampleSession) w) = []
  /\ DeleteAllEventsCalls
       (emitted (onClose sampleSession2) (exec (onClose sampleSession) w))
     = ["alice"]
  /\ sessions (exec (onClose sampleSession2) (exec (onClose sampleSession) w))
     = delete "s2" (delete "s1" (sessions w)).
Proof.
  apply (onClose_last_of_two sampleSession sampleSession2
           (worldOf [sampleSession; sampleSession2]));
    [reflexivity | reflexivity | discriminate | reflexivity |].
  intros k s Hk _. unfold worldOf in Hk. cbn [sessions] in Hk.
  rewrite !fmap_cons, !list_to_map_cons, fmap_nil, list_to_map_nil in Hk.
  apply lookup_insert_Some in Hk as [[<- _]|[_ Hk]]; [by left|].
  apply lookup_insert_Some in Hk as [[<- _]|[_ Hk]]; [by right|].
  by rewrite lookup_empty in Hk.
Defined.

(** A session of [bob] is added under the free key [s3]. *)
Lemma onClose_other_users_witness :
  emitted (onClose sampleSession)
          {| sessions := <["s3" := spacedSession]>
                           (sessions (worldOf [sampleSession; sampleSession2]));
             calls := [] |}
  = emitted (onClose sampleSession) (worldOf [sampleSession; sampleSession2]).
Proof.
  apply (onClose_other_users_irrelevant sampleSession spacedSession "s3"
           (worldOf [sampleSession; sampleSession2]));
    [discriminate | reflexivity].
Defined.

(** From the sample table every step gives a table keyed by session ID. *)
Lemma keyedByID_invariant_witness :
  keyedByID (sessions (exec (DeleteAuth sampleOk (bearerRequest "s1" "t1"))
                            (worldOf [sampleSession; literalSession])))
  /\ keyedByID (sessions (exec (onClose sampleSession)
                               (worldOf [sampleSession; literalSession]))).
Proof.
  pose proof (proj2 (@keyedByID_invariant sampleBackend sampleOk sampleBadRequest
                       sampleUnauthorized sampleInternalServerError
                       samplePopulate sampleMarshal 500 "unknown_error")
                (worldOf [sampleSession; literalSession])
                (keyedByID_worldOf _)) as (_ & _ & _ & Hdel & Hclose).
  split; [apply Hdel | apply Hclose].
Defined.

(** A revocation request without a token. *)
Lemma DeleteAuth_without_token_witness :
  sessions (exec (DeleteAuth sampleOk (headerRequest "s1" "Bearer t1"))
                 (worldOf [literalSession]))
  = sessions (worldOf [literalSession])
  /\ emitted (DeleteAuth sampleOk (headerRequest "s1" "Bearer t1"))
             (worldOf [literalSession])
     = [JSON 200 (RespBody {| ResponseCode := sampleOk |})].
Proof.
  apply (DeleteAuth_without_token sampleOk (headerRequest "s1" "Bearer t1")
           (worldOf [literalSession])).
  reflexivity.
Defined.

(** Revocation leaves every key but ["sessionToken"] alone. *)
Lemma DeleteAuth_other_keys_witness :
  sessions (exec (DeleteAuth sampleOk (bearerRequest "s2" "t2"))
                 (worldOf [sampleSession; sampleSession2])) !! "s2"
  = sessions (worldOf [sampleSession; sampleSession2]) !! "s2".
Proof.
  apply (DeleteAuth_other_keys sampleOk (bearerRequest "s2" "t2")
           (worldOf [sampleSession; sampleSession2]) "s2").
  discriminate.
Defined.

(** A second header value and another body change nothing. *)
Lemma AuthCookies_reads_first_header_value_witness :
  emitted (AuthCookies sampleOk sampleBadRequest sampleMarshal
             (twoValueRequest "s1" "Bearer t1" "Basic zzz")
             {| AuthCookiesReq_ClientID := "web"; AuthCookiesReq_RefreshToken := "r";
                RedirectURI := "https://example.org"; State := "x" |})
          (worldOf [sampleSession])
  = emitted (AuthCookies sampleOk sampleBadRequest sampleMarshal
               (headerRequest "s1" "Bearer t1") emptyAuthCookiesReq)
            (worldOf [sampleSession]).
Proof.
  apply (AuthCookies_reads_first_header_value sampleOk sampleBadRequest
           sampleMarshal (twoValueRequest "s1" "Bearer t1" "Basic zzz")
           (headerRequest "s1" "Bearer t1") _ _ (worldOf [sampleSession])
           "Bearer t1" ["Basic zzz"]); reflexivity.
Defined.

(** A path is cut at its first two slashes. *)
Lemma SplitN_Join_witness :
  GoStrings.SplitN "api/auth/cookies/x" "/" 3 = ["api"; "auth"; "cookies/x"]
  /\ GoStrings.Join (GoStrings.SplitN "api/auth/cookies/x" "/" 3) "/"
     = "api/auth/cookies/x"
  /\ (1 <= length (GoStrings.SplitN "api/auth/cookies/x" "/" 3))%nat
  /\ Z.of_nat (length (GoStrings.SplitN "api/auth/cookies/x" "/" 3)) <= 3.
Proof.
  split; [reflexivity|].
  pose proof (SplitN_Join "api/auth/cookies/x" "/" 3
                ltac:(discriminate) ltac:(discriminate)) as (Hjoin & Hone & Hmax).
  split; [exact Hjoin|]. split; [exact Hone|]. apply Hmax. reflexivity.
Defined.

(** The header [Bearer t1] for the session [s1], and only such a header. *)
Lemma AuthCookies_succeeds_iff_witness :
  exists session,
    emitted (AuthCookies sampleOk sampleBadRequest sampleMarshal
               (bearerRequest "s1" "t1") emptyAuthCookiesReq)
            (worldOf [sampleSession])
    = promoted sampleOk sampleMarshal session.
Proof.
  apply (proj2 (AuthCookies_succeeds_iff sampleOk sampleBadRequest sampleMarshal
                  (bearerRequest "s1" "t1") emptyAuthCookiesReq
                  (worldOf [sampleSession]))).
  split; [discriminate|].
  exists sampleSession, []. split; reflexivity.
Defined.

End api.
